(** * The appnexus backend base layer

    A shallow embedding of
    [contentcuration/automation/utils/appnexus/base.py]: the session
    with a maximum connection age, the request and response objects,
    and the singleton [Backend] with its URL construction, its retrying
    dispatch and the two public calls [connect] and [make_request].

    Python objects with open attribute sets ([BackendRequest],
    [BackendResponse]) are finite maps from attribute name to value;
    dictionaries (keyword arguments, JSON objects) keep their entries
    in insertion order.  Effects (the clock, the network, the
    connection handles, the log, the mutated receiver and descriptor)
    are threaded through a state-and-exception monad. *)

From Stdlib Require Import ZArith QArith String Ascii List Lia Bool.
From stdpp Require Import base gmap strings list.

Set Warnings "-register-all".
Set Default Proof Using "Type".

Local Open Scope string_scope.
Local Open Scope Z_scope.

(** ** Python values *)

(** The values that flow through the module: [None], booleans,
    integers, strings, lists and string-keyed dictionaries.  This is
    also the range of [json.loads] (numbers restricted to integers).
    A dictionary keeps its entries in the order in which its keys were
    first inserted, and that is the order in which [items()] and
    [**info] replay them. *)
Inductive value : Type :=
| VNone
| VBool (b : bool)
| VInt (n : Z)
| VStr (s : string)
| VList (l : list value)
| VDict (d : list (string * value)).

(** The entries of a dictionary, in insertion order.  The dictionaries
    Python builds hold every key once. *)
Abbreviation dict := (list (string * value)).

(** [{}] and [{key: v}]. *)
#[global] Instance dict_empty : Empty dict := [].
#[global] Instance dict_singleton : SingletonM string value dict :=
  fun key v => [(key, v)].

(** [d.get(key)]. *)
Fixpoint dict_get (key : string) (d : dict) : option value :=
  match d with
  | [] => None
  | (k, v) :: d' => if String.eqb k key then Some v else dict_get key d'
  end.
#[global] Instance dict_lookup : Lookup string value dict := dict_get.

(** [d[key] = v], which is also [d.update({key: v})]: a key that is
    present keeps its place and takes the new value, a new key goes to
    the end. *)
Fixpoint dict_update (d : dict) (key : string) (v : value) : dict :=
  match d with
  | [] => [(key, v)]
  | (k, w) :: d' =>
      if String.eqb k key then (k, v) :: d' else (k, w) :: dict_update d' key v
  end.

(** Truth value testing, as in [if self.base_url:]. *)
Definition truthy (v : value) : bool :=
  match v with
  | VNone => false
  | VBool b => b
  | VInt n => negb (n =? 0)
  | VStr s => negb (String.eqb s "")
  | VList l => match l with [] => false | _ => true end
  | VDict d => match d with [] => false | _ => true end
  end.

(** [bool] is a subclass of [int]: both take part in integer arithmetic
    and comparison. *)
Definition as_int (v : value) : option Z :=
  match v with
  | VInt n => Some n
  | VBool b => Some (Z.b2z b)
  | _ => None
  end.

(** An object with an open attribute set is its [__dict__]: what each
    attribute name is bound to. *)
Abbreviation obj := (gmap string value).

(** The assignment [self.key = v] for a name written in the source:
    none of the names this module assigns to is special, the value
    goes into the object's [__dict__]. *)
Definition assign (self : obj) (key : string) (v : value) : obj :=
  <[key := v]> self.

(** ** Strings: [str.lstrip], [str.rstrip], [str.join] *)

Fixpoint char_in (a : ascii) (chars : string) : bool :=
  match chars with
  | EmptyString => false
  | String c chars' => Ascii.eqb a c || char_in a chars'
  end.

(** [s.lstrip(chars)]: drop the longest prefix made of characters of
    [chars]. *)
Fixpoint lstrip (chars : string) (s : string) : string :=
  match s with
  | EmptyString => EmptyString
  | String a s' => if char_in a chars then lstrip chars s' else s
  end.

(** [s.rstrip(chars)]: drop the longest suffix made of characters of
    [chars]. *)
Fixpoint rstrip (chars : string) (s : string) : string :=
  match s with
  | EmptyString => EmptyString
  | String a s' =>
      match rstrip chars s' with
      | EmptyString => if char_in a chars then EmptyString else String a EmptyString
      | r => String a r
      end
  end.

(** [sep.join(parts)]. *)
Definition join (sep : string) (parts : list string) : string :=
  String.concat sep parts.

(** ** Exceptions *)

(** The built-in exception classes that occur. *)
Module builtins.
Inductive cls : Set :=
| Exception | OSError | ValueError | TypeError | AttributeError
| RuntimeError | NotImplementedError | RecursionError.
End builtins.

(** The exception classes of the [requests] library
    ([requests.exceptions]); [urllib3_HTTPError] is the urllib3 base
    class that [ContentDecodingError] also derives from. *)
Module exceptions.
Inductive cls : Set :=
| RequestException | InvalidJSONError | JSONDecodeError | HTTPError
| ConnectionError | ProxyError | SSLError | Timeout | ConnectTimeout
| ReadTimeout | URLRequired | TooManyRedirects | MissingSchema
| InvalidSchema | InvalidURL | InvalidHeader | InvalidProxyURL
| ChunkedEncodingError | ContentDecodingError | StreamConsumedError
| RetryError | UnrewindableBodyError | urllib3_HTTPError.
End exceptions.

(** Modelled from the spec: the module [errors] imported by
    [from . import errors] is not part of the sources at hand.  The
    spec's closed taxonomy names the five kinds that [base.py] raises;
    each is an ordinary exception class (a failure that [connect]
    catches with [except Exception]). *)
Module errors.
Inductive cls : Set :=
| ConnectionError | TimeoutError | HttpError | InvalidRequest
| InvalidResponse.
End errors.

Inductive pyclass : Set :=
| Builtin (c : builtins.cls)
| Requests (c : exceptions.cls)
| Errors (c : errors.cls).

#[global] Instance builtins_eq_dec : EqDecision builtins.cls.
Proof. solve_decision. Defined.
#[global] Instance exceptions_eq_dec : EqDecision exceptions.cls.
Proof. solve_decision. Defined.
#[global] Instance errors_eq_dec : EqDecision errors.cls.
Proof. solve_decision. Defined.
#[global] Instance pyclass_eq_dec : EqDecision pyclass.
Proof. solve_decision. Defined.

(** The base classes written in each [class] statement.
    [IOError] is [OSError]. *)
Definition bases (c : pyclass) : list pyclass :=
  match c with
  | Builtin builtins.Exception => []
  | Builtin builtins.NotImplementedError => [Builtin builtins.RuntimeError]
  | Builtin builtins.RecursionError => [Builtin builtins.RuntimeError]
  | Builtin _ => [Builtin builtins.Exception]
  | Requests exceptions.RequestException => [Builtin builtins.OSError]
  | Requests exceptions.InvalidJSONError => [Requests exceptions.RequestException]
  | Requests exceptions.JSONDecodeError =>
      [Requests exceptions.InvalidJSONError; Builtin builtins.ValueError]
  | Requests exceptions.HTTPError => [Requests exceptions.RequestException]
  | Requests exceptions.ConnectionError => [Requests exceptions.RequestException]
  | Requests exceptions.ProxyError => [Requests exceptions.ConnectionError]
  | Requests exceptions.SSLError => [Requests exceptions.ConnectionError]
  | Requests exceptions.Timeout => [Requests exceptions.RequestException]
  | Requests exceptions.ConnectTimeout =>
      [Requests exceptions.ConnectionError; Requests exceptions.Timeout]
  | Requests exceptions.ReadTimeout => [Requests exceptions.Timeout]
  | Requests exceptions.URLRequired => [Requests exceptions.RequestException]
  | Requests exceptions.TooManyRedirects => [Requests exceptions.RequestException]
  | Requests exceptions.MissingSchema =>
      [Requests exceptions.RequestException; Builtin builtins.ValueError]
  | Requests exceptions.InvalidSchema =>
      [Requests exceptions.RequestException; Builtin builtins.ValueError]
  | Requests exceptions.InvalidURL =>
      [Requests exceptions.RequestException; Builtin builtins.ValueError]
  | Requests exceptions.InvalidHeader =>
      [Requests exceptions.RequestException; Builtin builtins.ValueError]
  | Requests exceptions.InvalidProxyURL => [Requests exceptions.InvalidURL]
  | Requests exceptions.ChunkedEncodingError => [Requests exceptions.RequestException]
  | Requests exceptions.ContentDecodingError =>
      [Requests exceptions.RequestException; Requests exceptions.urllib3_HTTPError]
  | Requests exceptions.StreamConsumedError =>
      [Requests exceptions.RequestException; Builtin builtins.TypeError]
  | Requests exceptions.RetryError => [Requests exceptions.RequestException]
  | Requests exceptions.UnrewindableBodyError => [Requests exceptions.RequestException]
  | Requests exceptions.urllib3_HTTPError => [Builtin builtins.Exception]
  | Errors _ => [Builtin builtins.Exception]
  end.

(** [c] is [k] or reaches [k] through at most [depth] base-class
    links. *)
Fixpoint issubclass_upto (depth : nat) (c k : pyclass) : bool :=
  bool_decide (c = k) ||
  match depth with
  | O => false
  | S depth' => existsb (fun b => issubclass_upto depth' b k) (bases c)
  end.

(** No chain of base classes above is longer than five links. *)
Definition issubclass (c k : pyclass) : bool := issubclass_upto 5 c k.

(** A raised exception: its class and the message it carries. *)
Record exn : Type := Exn { exn_class : pyclass; exn_msg : string }.

(** [except (k1, k2, ...)]. *)
Definition isinstance_any (e : exn) (ks : list pyclass) : bool :=
  existsb (issubclass (exn_class e)) ks.

(** The outcome of a call: a returned value or a raised exception. *)
Inductive res (A : Type) : Type :=
| Ret (a : A)
| Raise (e : exn).
Arguments Ret {A} a.
Arguments Raise {A} e.

Definition AttributeError_ (msg : string) : exn :=
  Exn (Builtin builtins.AttributeError) msg.
Definition TypeError_ (msg : string) : exn :=
  Exn (Builtin builtins.TypeError) msg.
Definition ValueError_ (msg : string) : exn :=
  Exn (Builtin builtins.ValueError) msg.

(** What the interpreter raises when a call would nest deeper than
    [sys.getrecursionlimit()] allows. *)
Definition RecursionError_ : exn :=
  Exn (Builtin builtins.RecursionError) "maximum recursion depth exceeded".

(** ** Setting attributes by name *)

(** The names under which an instance of a plain class (one that
    derives from [object] and declares no slots) finds a data
    descriptor instead of an entry of its [__dict__]. *)
Definition special (key : string) : bool :=
  bool_decide (key ∈ ["__dict__"; "__class__"; "__weakref__"]).

(** The attributes an object has once a dictionary has become its
    [__dict__]. *)
Definition attributes_of (d : dict) : obj := list_to_map d.

(** [setattr(self, key, v)] on an instance of a plain class, for a
    name known only when the program runs.  Under [__dict__] a
    dictionary takes the place of all the attributes the object had,
    and anything else is refused; [__class__] takes a class only, and
    no value here is one; [__weakref__] cannot be written.  Any other
    name is bound in the object's [__dict__]. *)
Definition setattr (self : obj) (key : string) (v : value) : res obj :=
  if String.eqb key "__dict__" then
    match v with
    | VDict d => Ret (attributes_of d)
    | _ => Raise (TypeError_ "__dict__ must be set to a dictionary")
    end
  else if String.eqb key "__class__" then
    Raise (TypeError_ "__class__ must be set to a class")
  else if String.eqb key "__weakref__" then
    Raise (AttributeError_ "attribute '__weakref__' of the object is not writable")
  else Ret (assign self key v).

(** ** URL construction *)

(** One [if part: url_array.append(strip(part))] step.  A falsy part is
    skipped; a truthy part must be a string for the strip method to
    exist. *)
Definition append_part (strip : string -> string) (part : value)
    (url_array : list string) : res (list string) :=
  if truthy part then
    match part with
    | VStr s => Ret (url_array ++ [strip s])%list
    | _ => Raise (AttributeError_ "object has no such strip method")
    end
  else Ret url_array.

(** [Backend._construct_full_url], on the values of [self.base_url],
    [self.url_prefix] and [path]. *)
Definition _construct_full_url (base_url url_prefix path : value) : res string :=
  let url_array := [] in
  match append_part (rstrip "/") base_url url_array with
  | Raise e => Raise e
  | Ret url_array =>
      match append_part (fun s => lstrip "/" (rstrip "/" s)) url_prefix url_array with
      | Raise e => Raise e
      | Ret url_array =>
          match append_part (lstrip "/") path url_array with
          | Raise e => Raise e
          | Ret url_array => Ret (join "/" url_array)
          end
      end
  end.

(** ** The environment: clock, network, connection handles, log *)

(** What the transport hands back: the status code and what
    [response.json()] makes of the body ([None] when the body is not
    valid JSON). *)
Record Response : Type := {
  status_code : Z;
  json_of_body : option value
}.

(** One call of [requests.Session.request] as the network sees it.
    [sent_via] is the identity of the connection handle that carried
    it and [sent_attempt] the descriptor's counter when it left. *)
Record Sent : Type := {
  sent_via : nat;
  sent_attempt : value;
  sent_method : value;
  sent_url : string;
  sent_params : value;
  sent_data : value;
  sent_headers : value;
  sent_json : value
}.

Inductive level : Set := ERROR | WARNING.

(** What lies outside the program: the reading of the clock at the
    [i]-th call of [time.time()] (seconds, taken as exact rationals),
    the outcome of the [i]-th call put on the network, and how far
    the interpreter lets the dispatch nest.  [_make_request] retries
    by calling itself, so every retry runs one activation deeper;
    [stack] is the number of activations that
    [sys.getrecursionlimit()] still allows below the one a dispatch
    starts with.  The calls that one activation makes into the
    libraries are taken to find the frames they need; an exception
    that one of them raises all the same, a [RecursionError] from
    within [requests] included, is an outcome of [transport]. *)
Record Oracle : Type := {
  time_time : nat -> Q;
  transport : nat -> Sent -> res Response;
  stack : nat
}.

Record Env : Type := {
  ticks : nat;                    (* clock readings taken so far *)
  opened : nat;                   (* handles created so far: the next fresh identity *)
  closed : list nat;              (* handles closed, latest first *)
  wire : list Sent;               (* calls put on the network, oldest first *)
  log : list (level * string)     (* log records, oldest first *)
}.

Definition tick (env : Env) : Env :=
  {| ticks := S (ticks env); opened := opened env; closed := closed env;
     wire := wire env; log := log env |}.

Definition open_handle (env : Env) : Env :=
  {| ticks := ticks env; opened := S (opened env); closed := closed env;
     wire := wire env; log := log env |}.

Definition close_handle (h : nat) (env : Env) : Env :=
  {| ticks := ticks env; opened := opened env; closed := h :: closed env;
     wire := wire env; log := log env |}.

Definition put_on_wire (s : Sent) (env : Env) : Env :=
  {| ticks := ticks env; opened := opened env; closed := closed env;
     wire := (wire env ++ [s])%list; log := log env |}.

Definition write_log (l : level) (msg : string) (env : Env) : Env :=
  {| ticks := ticks env; opened := opened env; closed := closed env;
     wire := wire env; log := (log env ++ [(l, msg)])%list |}.

(** ** SessionWithMaxConnectionAge *)

(** The session object: its two attributes and the identity of the
    connection handle (adapters and pools) that
    [requests.Session.__init__] mounted last. *)
Record SessionWithMaxConnectionAge : Type := {
  age : Q;
  last_used : Q;
  handle : nat
}.

Module Session.
Section WithOracle.
Variable Ω : Oracle.

(** [__init__(self, age)]: store the age, read the clock, let the
    parent initialiser mount a fresh handle. *)
Definition __init__ (age : Q) (env : Env) : SessionWithMaxConnectionAge * Env :=
  let now := time_time Ω (ticks env) in
  let env := tick env in
  ({| age := age; last_used := now; handle := opened env |}, open_handle env).

(** [request(self, *args, **kwargs)].  [call] is the request as the
    caller wrote it; the handle that carries it is filled in here. *)
Definition request (self : SessionWithMaxConnectionAge) (call : Sent) (env : Env)
  : res Response * SessionWithMaxConnectionAge * Env :=
  let current_time := time_time Ω (ticks env) in
  let env := tick env in
  let '(self, env) :=
    if Qlt_le_dec (age self) (current_time - last_used self)%Q
    then __init__ (age self) (close_handle (handle self) env)
    else (self, env) in
  let self := {| age := age self; last_used := current_time; handle := handle self |} in
  let sent := {| sent_via := handle self; sent_attempt := sent_attempt call;
                 sent_method := sent_method call; sent_url := sent_url call;
                 sent_params := sent_params call; sent_data := sent_data call;
                 sent_headers := sent_headers call; sent_json := sent_json call |} in
  (transport Ω (length (wire env)) sent, self, put_on_wire sent env).
End WithOracle.
End Session.

(** ** BackendRequest and BackendResponse *)

(** [for key, value in kwargs.items(): setattr(self, key, value)]:
    the entries are replayed in their order, and the first one that
    [setattr] refuses ends the loop with its exception. *)
Fixpoint apply_kwargs (self : obj) (kwargs : dict) : res obj :=
  match kwargs with
  | [] => Ret self
  | (key, v) :: kwargs' =>
      match setattr self key v with
      | Ret self' => apply_kwargs self' kwargs'
      | Raise e => Raise e
      end
  end.

Module BackendRequest.
(** The eight assignments that open the body of [__init__]. *)
Definition core_fields (self : obj)
    (method path params data json headers max_retries : value) : obj :=
  let self := assign self "method" method in
  let self := assign self "path" path in
  let self := assign self "params" params in
  let self := assign self "data" data in
  let self := assign self "json" json in
  let self := assign self "headers" headers in
  let self := assign self "max_retries" max_retries in
  let self := assign self "tried" (VInt 0) in
  self.

(** The body of [__init__]: the assignments, then the loop over the
    keywords. *)
Definition __init__ (self : obj)
    (method path params data json headers max_retries : value)
    (kwargs : dict) : res obj :=
  apply_kwargs (core_fields self method path params data json headers max_retries) kwargs.

(** The names bound by the signature: a keyword of one of these names
    never reaches [**kwargs]. *)
Definition parameters : list string :=
  ["self"; "method"; "path"; "params"; "data"; "json"; "headers"; "max_retries"].

(** The call [BackendRequest(method, path, params, data, json,
    headers, max_retries, **kwargs)] with every named parameter
    given ([None] and [1] being the defaults of the optional ones). *)
Definition new (method path params data json headers max_retries : value)
    (kwargs : dict) : res obj :=
  match List.find (fun kv => bool_decide (kv.1 ∈ parameters)) kwargs with
  | Some kv => Raise (TypeError_ ("__init__() got multiple values for argument " ++ kv.1))
  | None => __init__ ∅ method path params data json headers max_retries kwargs
  end.
End BackendRequest.

Module BackendResponse.
Definition __init__ (self : obj) (kwargs : dict) : res obj :=
  apply_kwargs self kwargs.

(** The call of [BackendResponse] on the unpacked dictionary [info]:
    the only named parameter is [self], and the entries reach
    [__init__] in the dictionary's order. *)
Definition new (info : dict) : res obj :=
  match info !! "self" with
  | Some _ => Raise (TypeError_ "__init__() got multiple values for argument self")
  | None => __init__ ∅ info
  end.
End BackendResponse.

(** ** Backend *)

(** A concrete subclass of [Backend]: its name, the names of the
    classes between it and [Backend] (nearest first), and the two
    class-level attributes a subclass sets. *)
Record Class : Type := {
  name : string;
  ancestors : list string;
  base_url : value;
  connect_endpoint : value
}.

(** An instance: its class and its two instance attributes.  Before
    [__init__] has run, [session] is the class-level [None]. *)
Record Backend : Type := {
  class_ : Class;
  url_prefix : value;
  session : option SessionWithMaxConnectionAge
}.

(** What a call on a backend can read and change: the receiver, the
    descriptor bound to the name [request], and the environment. *)
Record Frame : Type := {
  self : Backend;
  request : obj;
  env : Env
}.

(** Computations over a frame: a run that comes to an end returns or
    raises and leaves a frame; [None] stands for a run that does
    not. *)
Definition M (A : Type) : Type := Frame -> option (res A * Frame).

Definition ret {A} (a : A) : M A := fun fr => Some (Ret a, fr).
Definition raise {A} (e : exn) : M A := fun fr => Some (Raise e, fr).

Definition bind {A B} (m : M A) (k : A -> M B) : M B :=
  fun fr =>
    match m fr with
    | None => None
    | Some (Ret a, fr') => k a fr'
    | Some (Raise e, fr') => Some (Raise e, fr')
    end.

Declare Scope py_scope.
Delimit Scope py_scope with py.
Notation "'let*' x ':=' m 'in' k" := (bind m (fun x => k))
  (at level 10, x name, m at level 100, k at level 200) : py_scope.
Notation "m '>>' k" := (bind m (fun _ => k))
  (at level 100, k at level 200, right associativity) : py_scope.
Local Open Scope py_scope.

Definition lift {A} (r : res A) : M A :=
  match r with Ret a => ret a | Raise e => raise e end.

(** [try: body except ...: handler]. *)
Definition try_except {A} (body : M A) (handler : exn -> M A) : M A :=
  fun fr =>
    match body fr with
    | Some (Raise e, fr') => handler e fr'
    | r => r
    end.

(** A chain of [except (classes) as e:] clauses: the first clause one
    of whose classes the exception is an instance of handles it; if
    there is none the exception goes on. *)
Definition except_ {A} (clauses : list (list pyclass * (exn -> M A))) (e : exn) : M A :=
  match List.find (fun clause => isinstance_any e clause.1) clauses with
  | Some clause => clause.2 e
  | None => raise e
  end.

Definition getattr_request (key : string) : M value :=
  fun fr =>
    match request fr !! key with
    | Some v => Some (Ret v, fr)
    | None => Some (Raise (AttributeError_ ("object has no attribute " ++ key)), fr)
    end.

Definition setattr_request (key : string) (v : value) : M unit :=
  fun fr => Some (Ret tt, {| self := self fr; request := assign (request fr) key v;
                             env := env fr |}).

Definition bind_request (r : obj) : M unit :=
  fun fr => Some (Ret tt, {| self := self fr; request := r; env := env fr |}).

Definition logging (l : level) (msg : string) : M unit :=
  fun fr => Some (Ret tt, {| self := self fr; request := request fr;
                             env := write_log l msg (env fr) |}).

(** [x += 1]. *)
Definition plus_one (x : value) : res value :=
  match as_int x with
  | Some n => Ret (VInt (n + 1))
  | None => Raise (TypeError_ "unsupported operand type(s) for +=")
  end.

(** [x >= y]. *)
Definition ge (x y : value) : res bool :=
  match as_int x, as_int y with
  | Some a, Some b => Ret (b <=? a)
  | _, _ => Raise (TypeError_ "'>=' not supported between these instances")
  end.

(** An upper bound on the attempts a dispatch of this descriptor can
    still make after the one it starts with. *)
Definition attempts_left (request : obj) : nat :=
  match request !! "tried", request !! "max_retries" with
  | Some t, Some m =>
      match as_int t, as_int m with
      | Some t, Some m => Z.to_nat (m - t)
      | _, _ => O
      end
  | _, _ => O
  end.

Section Dispatch.
Variable Ω : Oracle.

(** The callee [self.session.request], looked up before the arguments
    of the call are evaluated. *)
Definition self_session_request : M unit :=
  fun fr =>
    match session (self fr) with
    | None => Some (Raise (AttributeError_ "'NoneType' object has no attribute 'request'"), fr)
    | Some _ => Some (Ret tt, fr)
    end.

(** The call [self.session.request(...)] itself, writing the session's
    new state back into the receiver. *)
Definition session_request (call : Sent) : M Response :=
  fun fr =>
    match session (self fr) with
    | None => Some (Raise (AttributeError_ "'NoneType' object has no attribute 'request'"), fr)
    | Some s =>
        let '(r, s', env') := Session.request Ω s call (env fr) in
        Some (r, {| self := {| class_ := class_ (self fr);
                               url_prefix := url_prefix (self fr);
                               session := Some s' |};
                    request := request fr; env := env' |})
    end.

Definition self_construct_full_url (path : value) : M string :=
  fun fr =>
    lift (_construct_full_url (base_url (class_ (self fr))) (url_prefix (self fr)) path) fr.

(** The body of the [try] in [_make_request]: count the attempt,
    then send. *)
Definition attempt (url : string) : M Response :=
  let* tried := getattr_request "tried" in
  let* tried := lift (plus_one tried) in
  setattr_request "tried" tried >>
  self_session_request >>
  let* method := getattr_request "method" in
  let* params := getattr_request "params" in
  let* data := getattr_request "data" in
  let* headers := getattr_request "headers" in
  let* json := getattr_request "json" in
  session_request {| sent_via := O; sent_attempt := tried;
                     sent_method := method; sent_url := url;
                     sent_params := params; sent_data := data;
                     sent_headers := headers; sent_json := json |}.

(** The body of the first [except] clause; [again] is the recursive
    call [self._make_request(request)]. *)
Definition retry_or_raise (url : string) (again : M Response) (e : exn) : M Response :=
  let* tried := getattr_request "tried" in
  let* max_retries := getattr_request "max_retries" in
  let* exhausted := lift (ge tried max_retries) in
  if (exhausted : bool) then
    logging ERROR (exn_msg e) >>
    raise (Exn (Errors errors.ConnectionError) "Connection error occurred.")
  else
    logging WARNING ("Connection error occurred. Retrying request to " ++ url) >>
    again.

(** The body shared by the other clauses: log, then raise the
    taxonomy failure. *)
Definition log_and_raise (kind : errors.cls) (msg : string) (e : exn) : M Response :=
  logging ERROR (exn_msg e) >>
  raise (Exn (Errors kind) msg).

(** The six [except] clauses of [_make_request], in the order they
    are written. *)
Definition handlers (url : string) (again : M Response)
  : list (list pyclass * (exn -> M Response)) :=
  [ ([Requests exceptions.ConnectionError;
      Requests exceptions.RequestException],
     retry_or_raise url again);
    ([Requests exceptions.SSLError],
     log_and_raise errors.ConnectionError ("Unable to connect to " ++ url));
    ([Requests exceptions.Timeout;
      Requests exceptions.ConnectTimeout;
      Requests exceptions.ReadTimeout],
     log_and_raise errors.TimeoutError ("Timeout occurred while connecting to " ++ url));
    ([Requests exceptions.TooManyRedirects;
      Requests exceptions.HTTPError],
     log_and_raise errors.HttpError ("HTTP error occurred while connecting to " ++ url));
    ([Requests exceptions.URLRequired;
      Requests exceptions.MissingSchema;
      Requests exceptions.InvalidSchema;
      Requests exceptions.InvalidURL;
      Requests exceptions.InvalidHeader;
      Requests exceptions.InvalidJSONError],
     log_and_raise errors.InvalidRequest ("Invalid request to " ++ url));
    ([Requests exceptions.ContentDecodingError;
      Requests exceptions.ChunkedEncodingError],
     log_and_raise errors.InvalidResponse ("Invalid response from " ++ url)) ].

(** An activation of [Backend._make_request] below which the
    interpreter allows [room] more.  The call
    [self._make_request(request)] in the first clause starts the next
    activation when there is room for it; with no room left the
    interpreter refuses the call with [RecursionError], which is
    raised in the handler and so goes on to the caller. *)
Fixpoint _make_request_within (room : nat) : M Response :=
  let again : M Response :=
    match room with
    | O => raise RecursionError_
    | S room' => _make_request_within room'
    end in
  let* path := getattr_request "path" in
  let* url := self_construct_full_url path in
  try_except (attempt url) (except_ (handlers url again)).

(** The call [self._make_request(request)] in the first clause, made
    from an activation that has [room] below it. *)
Definition again (room : nat) : M Response :=
  match room with
  | O => raise RecursionError_
  | S room' => _make_request_within room'
  end.

(** [Backend._make_request(self, request)]. *)
Definition _make_request : M Response := _make_request_within (stack Ω).

(** The descriptor of [connect]:
    [BackendRequest(method="GET", path=self.connect_endpoint)]. *)
Definition connect_request (endpoint : value) : res obj :=
  BackendRequest.new (VStr "GET") endpoint VNone VNone VNone VNone (VInt 1) [].

(** [Backend.connect], for whatever [self._make_request] resolves
    to. *)
Definition connect_via (_make_request : M Response) : M bool :=
  try_except
    (let* request := (fun fr => lift (connect_request (connect_endpoint (class_ (self fr)))) fr) in
     bind_request request >>
     let* response := _make_request in
     if negb (status_code response =? 200) then ret false else ret true)
    (except_ [ ([Builtin builtins.Exception], fun e => ret false) ]).

Definition connect : M bool := connect_via _make_request.

(** [response.json()]. *)
Definition Response_json (response : Response) : res value :=
  match json_of_body response with
  | Some v => Ret v
  | None => Raise (Exn (Requests exceptions.JSONDecodeError) "Expecting value")
  end.

(** [info.update({"status_code": status})]. *)
Definition update_status_code (info : value) (status : Z) : res dict :=
  match info with
  | VDict d => Ret (dict_update d "status_code" (VInt status))
  | _ => Raise (AttributeError_ "object has no attribute 'update'")
  end.

(** The call [self._make_request(path, **kwargs)] against the
    signature [_make_request(self, request)]: the positional argument
    becomes [request]; there is no parameter for a keyword to bind
    to. *)
Definition call__make_request (_make_request : M Response)
    (path : obj) (kwargs : dict) : M Response :=
  match kwargs with
  | [] => bind_request path >> _make_request
  | (key, _) :: _ =>
      raise (TypeError_ ("_make_request() got an unexpected keyword argument " ++ key))
  end.

(** [Backend.make_request(self, path, **kwargs)], for whatever
    [self._make_request] resolves to.  The first argument is handed
    on as the descriptor. *)
Definition make_request_via (_make_request : M Response)
    (path : obj) (kwargs : dict) : M obj :=
  let* response := call__make_request _make_request path kwargs in
  try_except
    (let* info := lift (Response_json response) in
     let* info := lift (update_status_code info (status_code response)) in
     lift (BackendResponse.new info))
    (except_
       [ ([Builtin builtins.ValueError],
          fun e =>
            logging ERROR (exn_msg e) >>
            raise (Exn (Errors errors.InvalidResponse) "Invalid response from backend")) ]).

Definition make_request (path : obj) (kwargs : dict) : M obj :=
  make_request_via _make_request path kwargs.
End Dispatch.

(** ** The singleton machinery *)

(** The classes and instances of a running process: which class owns
    an [_instance] attribute and what it refers to, the instances
    created so far (an instance is known by its position), and the
    environment. *)
Record Process : Type := {
  _instance : gmap string nat;
  objects : list Backend;
  world : Env
}.

(** The attribute lookup [class_._instance]: the class's own
    attribute, else the nearest ancestor's, else [Backend]'s [None]. *)
Definition class_instance (class_ : Class) (p : Process) : option nat :=
  head (omap (fun c => _instance p !! c) (name class_ :: ancestors class_)).

(** [isinstance(x, class_)] for [x] that is [None] or an instance. *)
Definition isinstance (x : option nat) (cls : Class) (p : Process) : bool :=
  match x with
  | None => false
  | Some r =>
      match objects p !! r with
      | Some b => bool_decide (name cls ∈ name (class_ b) :: ancestors (class_ b))
      | None => false
      end
  end.

(** [Backend.__new__(class_, url_prefix)]. *)
Definition __new__ (cls : Class) (prefix : value) (p : Process) : option nat * Process :=
  let p :=
    if negb (isinstance (class_instance cls p) cls p) then
      let r := length (objects p) in
      {| _instance := <[name cls := r]> (_instance p);
         objects := (objects p ++
                      [{| class_ := cls; url_prefix := prefix; session := None |}])%list;
         world := world p |}
    else p in
  (class_instance cls p, p).

Section Construction.
Variable Ω : Oracle.

(** [Backend.__init__(self, url_prefix)]; the session is created with
    its default age of ten seconds. *)
Definition __init__ (self : nat) (prefix : value) (p : Process) : Process :=
  let '(s, w) := Session.__init__ Ω 10%Q (world p) in
  {| _instance := _instance p;
     objects := alter (fun b => {| class_ := class_ b; url_prefix := prefix;
                                   session := Some s |}) self (objects p);
     world := w |}.

(** The call [class_(url_prefix)]: [__new__], then [__init__] on what
    it returned when that is an instance of the class. *)
Definition construct (cls : Class) (prefix : value) (p : Process) : option nat * Process :=
  let '(x, p) := __new__ cls prefix p in
  match x with
  | Some r => if isinstance x cls p then (x, __init__ r prefix p) else (x, p)
  | None => (x, p)
  end.
End Construction.

(** [Backend._create_instance(cls)], as the base class has it. *)
Definition _create_instance (cls : Class) (args : list value) (p : Process)
  : res nat * Process :=
  match args with
  | [] => (Raise (Exn (Builtin builtins.NotImplementedError)
                    "Subclasses should implement the creation of instance"), p)
  | _ => (Raise (TypeError_ "_create_instance() takes 1 positional argument"), p)
  end.

(** [Backend.get_instance(cls, *args)]; an instance is truthy. *)
Definition get_instance (cls : Class) (args : list value) (p : Process)
  : res nat * Process :=
  match class_instance cls p with
  | Some r => (Ret r, p)
  | None => _create_instance cls args p
  end.

(** ** The URL rule in the spec's words *)

(** A part takes its place in the URL when the string given for it is
    not empty. *)
Definition given (s stripped : string) : option string :=
  match s with
  | EmptyString => None
  | _ => Some stripped
  end.

(** [buildFullUrl]: the base without its trailing slashes, the prefix
    without its leading and trailing slashes, the path without its
    leading slashes, each present when given, with one slash between
    neighbours. *)
Definition buildFullUrl (baseUrl urlPrefix path : string) : string :=
  match given baseUrl (rstrip "/" baseUrl),
        given urlPrefix (lstrip "/" (rstrip "/" urlPrefix)),
        given path (lstrip "/" path) with
  | Some b, Some p, Some x => b ++ "/" ++ p ++ "/" ++ x
  | Some b, Some p, None => b ++ "/" ++ p
  | Some b, None, Some x => b ++ "/" ++ x
  | None, Some p, Some x => p ++ "/" ++ x
  | Some b, None, None => b
  | None, Some p, None => p
  | None, None, Some x => x
  | None, None, None => ""
  end.

(** A run of [n] slashes. *)
Fixpoint slashes (n : nat) : string :=
  match n with
  | O => ""
  | S n' => String "/" (slashes n')
  end.

Definition starts_with_slash (s : string) : bool :=
  match s with
  | String a _ => Ascii.eqb a "/"
  | EmptyString => false
  end.

Fixpoint ends_with_slash (s : string) : bool :=
  match s with
  | EmptyString => false
  | String a EmptyString => Ascii.eqb a "/"
  | String _ s' => ends_with_slash s'
  end.

(** ** Vocabulary of the statements *)

(** The counter values [a], [a + 1], ... of [k] successive attempts. *)
Fixpoint count_from (a : Z) (k : nat) : list value :=
  match k with
  | O => []
  | S k' => VInt a :: count_from (a + 1) k'
  end.

(** A frame on which a dispatch can run its course: the descriptor has
    its eight core attributes, with integer counter [t] and integer
    budget [n]; its path builds the URL [url]; the receiver has its
    session. *)
Record ready (fr : Frame) (url : string) (t n : Z) : Prop := {
  ready_path : exists path,
    request fr !! "path" = Some path /\
    _construct_full_url (base_url (class_ (self fr))) (url_prefix (self fr)) path = Ret url;
  ready_tried : request fr !! "tried" = Some (VInt t);
  ready_max_retries : request fr !! "max_retries" = Some (VInt n);
  ready_method : is_Some (request fr !! "method");
  ready_params : is_Some (request fr !! "params");
  ready_data : is_Some (request fr !! "data");
  ready_headers : is_Some (request fr !! "headers");
  ready_json : is_Some (request fr !! "json");
  ready_session : is_Some (session (self fr))
}.

(** The transport fails every call with an exception of class [k] or
    of a subclass of it. *)
Definition always_raises (Ω : Oracle) (k : pyclass) : Prop :=
  forall i sent, exists e, transport Ω i sent = Raise e /\ issubclass (exn_class e) k = true.

(** The calls a run put on the network. *)
Definition sent_during (before after : Frame) (calls : list Sent) : Prop :=
  wire (env after) = (wire (env before) ++ calls)%list.

(** The frame after an attempt: the counter is [t + 1], the session
    and the environment are as the session's [request] left them. *)
Definition after_attempt (fr : Frame) (t : Z) (s' : SessionWithMaxConnectionAge)
    (env' : Env) : Frame :=
  {| self := {| class_ := class_ (self fr); url_prefix := url_prefix (self fr);
                session := Some s' |};
     request := assign (request fr) "tried" (VInt (t + 1));
     env := env' |}.

(** The frame after a log record has been written. *)
Definition logged (l : level) (msg : string) (fr : Frame) : Frame :=
  {| self := self fr; request := request fr; env := write_log l msg (env fr) |}.

(** The failure of the first [except] clause. *)
Definition connection_error_occurred : exn :=
  Exn (Errors errors.ConnectionError) "Connection error occurred.".

(** What a finished run shows: its outcome, the counter values of the
    calls it put on the network, the descriptor's counter at the end,
    and the log. *)
Definition outcome {A} (run : option (res A * Frame)) : option (res A) :=
  fst <$> run.

Definition attempts {A} (run : option (res A * Frame)) : option (list value) :=
  (fun x => map sent_attempt (wire (env x.2))) <$> run.

Definition final_tried {A} (run : option (res A * Frame)) : option (option value) :=
  (fun x => request x.2 !! "tried") <$> run.

Definition final_log {A} (run : option (res A * Frame)) : option (list (level * string)) :=
  (fun x => log (env x.2)) <$> run.

(** The frame in which [connect] dispatches: the receiver and the
    environment as they are, the name [request] bound to the fresh
    GET descriptor for the class's [connect_endpoint]. *)
Definition connect_frame (fr : Frame) : Frame :=
  {| self := self fr;
     request := BackendRequest.core_fields ∅ (VStr "GET")
                  (connect_endpoint (class_ (self fr))) VNone VNone VNone VNone (VInt 1);
     env := env fr |}.

(** The frame in which [make_request] dispatches: the name [request]
    bound to its first argument. *)
Definition with_request (path : obj) (fr : Frame) : Frame :=
  {| self := self fr; request := path; env := env fr |}.

(** The failure [make_request] raises for a body that is not JSON. *)
Definition invalid_response_from_backend : exn :=
  Exn (Errors errors.InvalidResponse) "Invalid response from backend".

(** ** Sample data *)

Definition ExampleBackend : Class :=
  {| name := "ExampleBackend"; ancestors := [];
     base_url := VStr "https://api.example.com/";
     connect_endpoint := VStr "/connect" |}.

Definition sample_session : SessionWithMaxConnectionAge :=
  {| age := 10; last_used := 0; handle := O |}.

Definition sample_env : Env :=
  {| ticks := 1; opened := 1; closed := []; wire := []; log := [] |}.

Definition sample_backend : Backend :=
  {| class_ := ExampleBackend; url_prefix := VStr "/v1/";
     session := Some sample_session |}.

(** [BackendRequest("GET", "/things", max_retries=n)]. *)
Definition sample_request (n : Z) : obj :=
  BackendRequest.core_fields ∅ (VStr "GET") (VStr "/things") VNone VNone VNone VNone (VInt n).

Definition sample_frame (r : obj) : Frame :=
  {| self := sample_backend; request := r; env := sample_env |}.

(** The room a dispatch finds in an interpreter with the recursion
    limit of 1000 that Python starts with, a dozen frames being in use
    when the dispatch is called. *)
Definition sample_stack : nat := 987.

(** A clock that advances one second per reading. *)
Definition steady_clock (i : nat) : Q := inject_Z (Z.of_nat i).

Definition answer (status : Z) (body : option value) : res Response :=
  Ret {| status_code := status; json_of_body := body |}.

Definition failure (c : exceptions.cls) : res Response :=
  Raise (Exn (Requests c) "transport failure").

(** A network on which every call fails with [c]. *)
Definition always_failing (c : exceptions.cls) : Oracle :=
  {| time_time := steady_clock; transport := fun _ _ => failure c;
     stack := sample_stack |}.

(** A network on which the first call fails with [c] and every later
    one is answered with status 200 and an empty JSON object. *)
Definition failing_once (c : exceptions.cls) : Oracle :=
  {| time_time := steady_clock;
     transport := fun i _ => match i with
                             | O => failure c
                             | S _ => answer 200 (Some (VDict ∅))
                             end;
     stack := sample_stack |}.

(** A network that answers every call with the given status and
    body. *)
Definition answering (status : Z) (body : option value) : Oracle :=
  {| time_time := steady_clock; transport := fun _ _ => answer status body;
     stack := sample_stack |}.

(** A process in which nothing has been constructed yet. *)
Definition fresh_process : Process :=
  {| _instance := ∅; objects := []; world := sample_env |}.

(** A clock that advances a hundred seconds per reading. *)
Definition slow_clock (i : nat) : Q := inject_Z (100 * Z.of_nat i).

(** Every object is the one its class's own [_instance] refers to. *)
Definition singletons (p : Process) : Prop :=
  forall r b, objects p !! r = Some b -> _instance p !! name (class_ b) = Some r.

(** The processes that constructions and [get_instance] calls lead to
    from a process without objects. *)
Inductive reachable (Ω : Oracle) : Process -> Prop :=
| reachable_fresh env : reachable Ω {| _instance := ∅; objects := []; world := env |}
| reachable_construct cls prefix p :
    reachable Ω p -> reachable Ω (construct Ω cls prefix p).2
| reachable_get_instance cls args p :
    reachable Ω p -> reachable Ω (get_instance cls args p).2.

(** ** Vocabulary of the further properties *)

(** The text of a part that is a string, and the empty text for
    [None]. *)
Definition text_of (v : value) : string :=
  match v with
  | VStr s => s
  | _ => ""
  end.

Definition none_or_str (v : value) : Prop :=
  v = VNone \/ exists s, v = VStr s.

(** A session whose handle has been created, has not been closed, and
    an environment in which every closed handle is one that was
    created. *)
Definition session_ok (s : SessionWithMaxConnectionAge) (env : Env) : Prop :=
  (handle s < opened env)%nat /\
  (handle s ∉ closed env) /\
  (forall h, h ∈ closed env -> (h < opened env)%nat).

(** Every [_instance] attribute refers to an object of the class that
    owns the attribute. *)
Definition registry_sound (p : Process) : Prop :=
  forall c r, _instance p !! c = Some r ->
    exists b, objects p !! r = Some b /\ name (class_ b) = c.

(** A subclass of [ExampleBackend]. *)
Definition SubBackend : Class :=
  {| name := "SubBackend"; ancestors := ["ExampleBackend"];
     base_url := VStr "https://sub.example.com"; connect_endpoint := VStr "/ping" |}.

(** An exception the interpreter raises on its own account: for an
    attribute that is missing or an operand of the wrong type. *)
Definition raised_by_python (e : exn) : Prop :=
  exn_class e = Builtin builtins.AttributeError \/
  exn_class e = Builtin builtins.TypeError.

(** The call carries what the descriptor says, to the URL built from
    the descriptor's path on this receiver. *)
Definition carries (fr : Frame) (c : Sent) : Prop :=
  request fr !! "method" = Some (sent_method c) /\
  request fr !! "params" = Some (sent_params c) /\
  request fr !! "data" = Some (sent_data c) /\
  request fr !! "headers" = Some (sent_headers c) /\
  request fr !! "json" = Some (sent_json c) /\
  exists path,
    request fr !! "path" = Some path /\
    _construct_full_url (base_url (class_ (self fr))) (url_prefix (self fr)) path
    = Ret (sent_url c).

(** A network on which every call fails with the exception [e]. *)
Definition raising (e : exn) : Oracle :=
  {| time_time := steady_clock; transport := fun _ _ => Raise e;
     stack := sample_stack |}.

(** The exceptions that come out of a dispatch: the failure of the
    first clause, an exception the interpreter raised on its own
    account, the [RecursionError] with which it refuses a retry that
    would nest too deep, or an exception of the transport that no
    clause catches. *)
Definition dispatch_failure (Ω : Oracle) (e : exn) : Prop :=
  e = connection_error_occurred \/ raised_by_python e \/ e = RecursionError_ \/
  (issubclass (exn_class e) (Requests exceptions.RequestException) = false /\
   exists i sent, transport Ω i sent = Raise e).

(** What every finished dispatch satisfies, from the frame [fr] it
    started in, with [room] below it, to the frame [fr'] it ended in
    with outcome [r]. *)
Definition dispatch_post (Ω : Oracle) (room : nat) (fr : Frame) (r : res Response)
    (fr' : Frame) : Prop :=
  (exists calls,
     wire (env fr') = (wire (env fr) ++ calls)%list /\
     (length calls <= Nat.max 1 (attempts_left (request fr)))%nat /\
     (length calls <= S room)%nat /\
     forall c, c ∈ calls -> carries fr c) /\
  (forall k, k <> "tried" -> request fr' !! k = request fr !! k) /\
  class_ (self fr') = class_ (self fr) /\
  url_prefix (self fr') = url_prefix (self fr) /\
  (forall e, r = Raise e -> dispatch_failure Ω e) /\
  (forall response, r = Ret response -> exists i sent, transport Ω i sent = Ret response).

(** The keywords bound one after the other as ordinary attributes. *)
Definition bind_all (self : obj) (kwargs : dict) : obj :=
  foldl (fun self kv => assign self kv.1 kv.2) self kwargs.

(** No entry of the dictionary has a special name for its key. *)
Definition ordinary (kwargs : dict) : Prop :=
  Forall (fun kv => special kv.1 = false) kwargs.

(** * Properties *)

(** ** Exception classes *)

Lemma every_class_is_an_Exception (c : pyclass) :
  issubclass c (Builtin builtins.Exception) = true.
Proof. destruct c as [[]|[]|[]]; reflexivity. Qed.

(** Looking one link further finds nothing new: five links cover the
    table of [bases]. *)
Lemma issubclass_depth (c k : pyclass) :
  issubclass_upto 6 c k = issubclass c k.
Proof. destruct c as [[]|[]|[]], k as [[]|[]|[]]; reflexivity. Qed.

Lemma requests_exceptions_are_RequestException (c : exceptions.cls) :
  c <> exceptions.urllib3_HTTPError ->
  issubclass (Requests c) (Requests exceptions.RequestException) = true.
Proof. destruct c; (reflexivity || congruence). Qed.

(** ** Strings *)

Lemma append_cons (a : ascii) (s t : string) : String a s ++ t = String a (s ++ t).
Proof. reflexivity. Qed.

Lemma append_empty (t : string) : "" ++ t = t.
Proof. reflexivity. Qed.

(** [s.lstrip("/")] is [s] without its leading run of slashes. *)
Lemma lstrip_slashes (s : string) :
  exists n, s = slashes n ++ lstrip "/" s /\ starts_with_slash (lstrip "/" s) = false.
Proof.
  induction s as [|a s IH].
  - exists O. split; reflexivity.
  - cbn [lstrip char_in]. destruct (Ascii.eqb a "/") eqn:E; cbn [orb].
    + apply Ascii.eqb_eq in E. subst a. destruct IH as (n & Hs & Hn).
      exists (S n). split; [|exact Hn].
      cbn [slashes]. rewrite append_cons, <- Hs. reflexivity.
    + exists O. split; [reflexivity|]. exact E.
Qed.

(** [s.rstrip("/")] is [s] without its trailing run of slashes. *)
Lemma rstrip_slashes (s : string) :
  exists n, s = rstrip "/" s ++ slashes n /\ ends_with_slash (rstrip "/" s) = false.
Proof.
  induction s as [|a s IH].
  - exists O. split; reflexivity.
  - destruct IH as (n & Hs & Hn). cbn [rstrip].
    destruct (rstrip "/" s) as [|c r] eqn:R.
    + rewrite append_empty in Hs. cbn [char_in orb].
      destruct (Ascii.eqb a "/") eqn:E; cbn [orb].
      * apply Ascii.eqb_eq in E. subst a. exists (S n). split; [|reflexivity].
        rewrite append_empty. cbn [slashes]. congruence.
      * exists n. split; [rewrite !append_cons, append_empty; congruence|].
        cbn [ends_with_slash]. exact E.
    + exists n. split; [rewrite append_cons; congruence|]. exact Hn.
Qed.

(** ** URL construction *)

Lemma construct_full_url_strings (baseUrl urlPrefix path : string) :
  _construct_full_url (VStr baseUrl) (VStr urlPrefix) (VStr path)
  = Ret (buildFullUrl baseUrl urlPrefix path).
Proof. destruct baseUrl, urlPrefix, path; reflexivity. Qed.

(** C6.  For all strings [baseUrl], [urlPrefix] and [path],
    [_construct_full_url] returns the URL the spec describes: the base
    with its trailing slashes stripped, the prefix with its leading and
    trailing slashes stripped and the path with its leading slashes
    stripped, each present exactly when the string given for it is not
    empty, with a single slash between neighbouring parts.  The spec's
    two examples follow: base "https://api.example.com/", prefix "/v1/"
    and path "/things" give "https://api.example.com/v1/things", and
    with the empty prefix "https://api.example.com/things". *)
Theorem construct_full_url_spec :
  (forall baseUrl urlPrefix path : string,
     _construct_full_url (VStr baseUrl) (VStr urlPrefix) (VStr path)
     = Ret (buildFullUrl baseUrl urlPrefix path)) /\
  _construct_full_url (VStr "https://api.example.com/") (VStr "/v1/") (VStr "/things")
  = Ret "https://api.example.com/v1/things" /\
  _construct_full_url (VStr "https://api.example.com/") (VStr "") (VStr "/things")
  = Ret "https://api.example.com/things".
Proof.
  split; [exact construct_full_url_strings|]. split; reflexivity.
Qed.

(** A part that is given but consists of slashes only still takes its
    place, as an empty segment between two slashes. *)
Example construct_full_url_slash_prefix :
  _construct_full_url (VStr "https://api.example.com/") (VStr "/") (VStr "/things")
  = Ret "https://api.example.com//things".
Proof. reflexivity. Qed.

(** A class-level [None] counts as an empty part. *)
Example construct_full_url_None :
  _construct_full_url VNone (VStr "v1") VNone = Ret "v1".
Proof. reflexivity. Qed.

(** ** The session *)

(** What one call through the session does to the network: exactly one
    call is put on the wire, carried by the session's handle as it is
    after the age check, and its outcome is the transport's. *)
Lemma Session_request_wire Ω s call env r s' env' :
  Session.request Ω s call env = (r, s', env') ->
  exists sent,
    wire env' = (wire env ++ [sent])%list /\
    sent_attempt sent = sent_attempt call /\
    sent_url sent = sent_url call /\
    sent_via sent = handle s' /\
    r = transport Ω (length (wire env)) sent /\
    log env' = log env.
Proof.
  unfold Session.request, Session.__init__.
  destruct (Qlt_le_dec _ _); cbn; intros [= <- <- <-]; eexists; cbn; eauto 10.
Qed.

(** One call through the session, seen from the age policy.  [now] is
    the clock reading the call starts with. *)
Lemma Session_request_age Ω s call env :
  (handle s < opened env)%nat ->
  exists r s' env' sent,
    Session.request Ω s call env = (r, s', env') /\
    wire env' = (wire env ++ [sent])%list /\
    sent_via sent = handle s' /\
    r = transport Ω (length (wire env)) sent /\
    last_used s' = time_time Ω (ticks env) /\
    age s' = age s /\
    (handle s' < opened env')%nat /\
    (ticks env < ticks env')%nat /\
    ((age s < time_time Ω (ticks env) - last_used s)%Q ->
       handle s' <> handle s /\ closed env' = handle s :: closed env) /\
    ((time_time Ω (ticks env) - last_used s <= age s)%Q ->
       handle s' = handle s /\ closed env' = closed env).
Proof.
  intros Hh. unfold Session.request, Session.__init__.
  destruct (Qlt_le_dec (age s) (time_time Ω (ticks env) - last_used s)) as [Hold|Hyoung];
    cbn [tick open_handle close_handle put_on_wire ticks opened closed wire log
         age last_used handle];
    eexists _, _, _, _; (split; [reflexivity|]);
    cbn [wire sent_via handle last_used age opened closed ticks].
  - do 5 (split; [reflexivity|]).
    cbn [put_on_wire open_handle tick close_handle opened ticks closed].
    split; [lia|]. split; [lia|].
    split; [intros _; split; [lia|reflexivity]|].
    intros Hle. exfalso. exact (Qlt_not_le _ _ Hold Hle).
  - do 5 (split; [reflexivity|]).
    cbn [put_on_wire open_handle tick close_handle opened ticks closed].
    split; [lia|]. split; [lia|].
    split; [|intros _; split; reflexivity].
    intros Hlt. exfalso. exact (Qlt_not_le _ _ Hlt Hyoung).
Qed.

(** C8.  Two successive requests through one session of age [a].
    Let [t] be the time between the two, that is the second request's
    clock reading minus [last_used] as the first request left it.  If
    [t > a] the second request goes out on a handle different from the
    first one's, and the first one's handle has been closed; if
    [t <= a] both go out on the same handle.  After each of the two
    requests [last_used] is the clock reading that request started
    with, whether the transport answered or raised. *)
Theorem connection_age_policy Ω s call1 call2 env :
  (handle s < opened env)%nat ->
  exists r1 s1 env1 sent1 r2 s2 env2 sent2,
    Session.request Ω s call1 env = (r1, s1, env1) /\
    Session.request Ω s1 call2 env1 = (r2, s2, env2) /\
    wire env2 = (wire env ++ [sent1; sent2])%list /\
    r1 = transport Ω (length (wire env)) sent1 /\
    r2 = transport Ω (S (length (wire env))) sent2 /\
    last_used s1 = time_time Ω (ticks env) /\
    last_used s2 = time_time Ω (ticks env1) /\
    age s2 = age s /\
    ((age s < time_time Ω (ticks env1) - last_used s1)%Q ->
       sent_via sent2 <> sent_via sent1 /\ sent_via sent1 ∈ closed env2) /\
    ((time_time Ω (ticks env1) - last_used s1 <= age s)%Q ->
       sent_via sent2 = sent_via sent1 /\ closed env2 = closed env1).
Proof.
  intros Hh.
  destruct (Session_request_age Ω s call1 env Hh)
    as (r1 & s1 & env1 & sent1 & H1 & Hw1 & Hv1 & Hr1 & Hu1 & Ha1 & Hh1 & _ & _ & _).
  destruct (Session_request_age Ω s1 call2 env1 Hh1)
    as (r2 & s2 & env2 & sent2 & H2 & Hw2 & Hv2 & Hr2 & Hu2 & Ha2 & _ & _ & Hold & Hyoung).
  exists r1, s1, env1, sent1, r2, s2, env2, sent2.
  split; [exact H1|]. split; [exact H2|].
  split; [rewrite Hw2, Hw1, <- app_assoc; reflexivity|].
  split; [exact Hr1|].
  split; [rewrite Hr2, Hw1, length_app; cbn [length]; f_equal; lia|].
  split; [exact Hu1|]. split; [exact Hu2|]. split; [congruence|].
  rewrite Hv1, Hv2, <- Ha1. split.
  - intros Hlt. destruct (Hold Hlt) as [Hne Hc]. split; [exact Hne|].
    rewrite Hc. apply list_elem_of_here.
  - intros Hle. exact (Hyoung Hle).
Qed.

Lemma connection_age_policy_witness :
  exists r1 s1 env1 sent1 r2 s2 env2 sent2,
    Session.request (answering 200 None) sample_session
      {| sent_via := 0; sent_attempt := VInt 1; sent_method := VStr "GET";
         sent_url := "https://api.example.com/"; sent_params := VNone; sent_data := VNone;
         sent_headers := VNone; sent_json := VNone |} sample_env = (r1, s1, env1) /\
    Session.request (answering 200 None) s1
      {| sent_via := 0; sent_attempt := VInt 2; sent_method := VStr "GET";
         sent_url := "https://api.example.com/"; sent_params := VNone; sent_data := VNone;
         sent_headers := VNone; sent_json := VNone |} env1 = (r2, s2, env2) /\
    wire env2 = (wire sample_env ++ [sent1; sent2])%list /\
    r1 = transport (answering 200 None) (length (wire sample_env)) sent1 /\
    r2 = transport (answering 200 None) (S (length (wire sample_env))) sent2 /\
    last_used s1 = time_time (answering 200 None) (ticks sample_env) /\
    last_used s2 = time_time (answering 200 None) (ticks env1) /\
    age s2 = age sample_session /\
    ((age sample_session < time_time (answering 200 None) (ticks env1) - last_used s1)%Q ->
       sent_via sent2 <> sent_via sent1 /\ sent_via sent1 ∈ closed env2) /\
    ((time_time (answering 200 None) (ticks env1) - last_used s1 <= age sample_session)%Q ->
       sent_via sent2 = sent_via sent1 /\ closed env2 = closed env1).
Proof.
  apply (connection_age_policy (answering 200 None) sample_session). cbn. lia.
Defined.

(** ** The dispatch *)

(** Every [requests] exception is caught by the first clause. *)
Lemma first_clause_catches url again e :
  issubclass (exn_class e) (Requests exceptions.RequestException) = true ->
  except_ (handlers url again) e = retry_or_raise url again e.
Proof.
  intros H. unfold except_, handlers, isinstance_any. cbn [List.find fst snd existsb].
  rewrite H, orb_true_r. reflexivity.
Qed.

Lemma attempt_ready Ω fr url t n :
  ready fr url t n ->
  exists s call r s' env',
    session (self fr) = Some s /\
    sent_attempt call = VInt (t + 1) /\
    sent_url call = url /\
    Session.request Ω s call (env fr) = (r, s', env') /\
    attempt Ω url fr = Some (r, after_attempt fr t s' env').
Proof.
  intros [_ Ht _ [m Hm] [ps Hps] [d Hd] [h Hh] [j Hj] [s Hs]].
  unfold attempt, bind, getattr_request, setattr_request, self_session_request,
    session_request, assign.
  rewrite Ht. cbn [lift plus_one as_int ret request self env]. rewrite Hs.
  repeat (rewrite ?lookup_insert_ne by done;
          rewrite ?Hm, ?Hps, ?Hd, ?Hh, ?Hj, ?Hs;
          progress cbn [request self env session]).
  rewrite Hs.
  match goal with |- context [Session.request Ω s ?c ?e] =>
    destruct (Session.request Ω s c e) as [[r s'] env'] eqn:E;
    exists s, c, r, s', env' end.
  repeat split; try reflexivity. exact E.
Qed.

Lemma after_attempt_ready fr url t n s' env' :
  ready fr url t n -> ready (after_attempt fr t s' env') url (t + 1) n.
Proof.
  intros [(path & Hp & Hu) Ht Hn Hm Hps Hd Hh Hj Hs].
  unfold after_attempt, assign.
  split; cbn [request self class_ url_prefix session];
    rewrite ?lookup_insert_ne by done; eauto.
  apply lookup_insert_eq.
Qed.

Lemma logged_ready l msg fr url t n :
  ready fr url t n -> ready (logged l msg fr) url t n.
Proof. intros []. split; assumption. Qed.

(** An activation is its body, the recursive call being [again]. *)
Lemma _make_request_within_body Ω room :
  _make_request_within Ω room
  = (let* path := getattr_request "path" in
     let* url := self_construct_full_url path in
     try_except (attempt Ω url) (except_ (handlers url (again Ω room))))%py.
Proof. destruct room; reflexivity. Qed.

(** With a ready frame the first two statements of [_make_request]
    succeed and leave the [try] statement. *)
Lemma _make_request_within_ready Ω room fr url t n :
  ready fr url t n ->
  _make_request_within Ω room fr
  = try_except (attempt Ω url) (except_ (handlers url (again Ω room))) fr.
Proof.
  intros [(path & Hp & Hu) _ _ _ _ _ _ _ _].
  rewrite _make_request_within_body. unfold bind at 1. unfold getattr_request at 1.
  rewrite Hp. unfold bind at 1. unfold self_construct_full_url. rewrite Hu.
  reflexivity.
Qed.

(** The first clause on a ready frame: give up when the counter has
    reached the budget, else log a warning and dispatch again. *)
Lemma retry_or_raise_ready url retry e fr t n :
  ready fr url t n ->
  retry_or_raise url retry e fr
  = if n <=? t
    then Some (Raise connection_error_occurred, logged ERROR (exn_msg e) fr)
    else retry (logged WARNING ("Connection error occurred. Retrying request to " ++ url) fr).
Proof.
  intros [_ Ht Hn _ _ _ _ _ _].
  unfold retry_or_raise, bind, getattr_request. rewrite Ht, Hn.
  cbn [lift ge as_int ret]. destruct (n <=? t); reflexivity.
Qed.

(** One activation of the dispatch on a ready frame whose attempt
    meets a [requests] exception. *)
Lemma _make_request_within_failure Ω room fr url t n :
  ready fr url t n ->
  exists s call sent e_or_r s' env',
    session (self fr) = Some s /\
    Session.request Ω s call (env fr) = (e_or_r, s', env') /\
    wire env' = (wire (env fr) ++ [sent])%list /\
    sent_attempt sent = VInt (t + 1) /\
    e_or_r = transport Ω (length (wire (env fr))) sent /\
    ready (after_attempt fr t s' env') url (t + 1) n /\
    match e_or_r with
    | Ret r => _make_request_within Ω room fr = Some (Ret r, after_attempt fr t s' env')
    | Raise e =>
        issubclass (exn_class e) (Requests exceptions.RequestException) = true ->
        _make_request_within Ω room fr
        = if n <=? t + 1
          then Some (Raise connection_error_occurred,
                     logged ERROR (exn_msg e) (after_attempt fr t s' env'))
          else again Ω room
                 (logged WARNING ("Connection error occurred. Retrying request to " ++ url)
                    (after_attempt fr t s' env'))
    end.
Proof.
  intros Hr.
  destruct (attempt_ready Ω fr url t n Hr) as (s & call & r & s' & env' & Hs & Hc & _ & HS & Ha).
  destruct (Session_request_wire _ _ _ _ _ _ _ HS) as (sent & Hw & Hsa & _ & _ & Ht & _).
  exists s, call, sent, r, s', env'.
  pose proof (after_attempt_ready fr url t n s' env' Hr) as Hr'.
  split; [exact Hs|]. split; [exact HS|]. split; [exact Hw|].
  split; [congruence|]. split; [exact Ht|]. split; [exact Hr'|].
  rewrite (_make_request_within_ready Ω room fr url t n Hr).
  unfold try_except. rewrite Ha. destruct r as [r|e]; [reflexivity|].
  intros He. rewrite first_clause_catches by assumption.
  apply retry_or_raise_ready. assumption.
Qed.




(** One activation against a network that fails every call with a
    [requests] exception: one call, then the first clause. *)
Lemma persistent_failure_step Ω url n room t fr :
  always_raises Ω (Requests exceptions.RequestException) ->
  ready fr url t n ->
  exists sent e s' env',
    wire env' = (wire (env fr) ++ [sent])%list /\
    sent_attempt sent = VInt (t + 1) /\
    ready (after_attempt fr t s' env') url (t + 1) n /\
    _make_request_within Ω room fr
    = if n <=? t + 1
      then Some (Raise connection_error_occurred,
                 logged ERROR (exn_msg e) (after_attempt fr t s' env'))
      else again Ω room
             (logged WARNING ("Connection error occurred. Retrying request to " ++ url)
                (after_attempt fr t s' env')).
Proof.
  intros Hnet Hr.
  destruct (_make_request_within_failure Ω room fr url t n Hr)
    as (s & call & sent & r & s' & env' & _ & _ & Hw & Hsa & Hout & Hr' & Hstep).
  destruct (Hnet (length (wire (env fr))) sent) as (e & He & Hsub).
  rewrite He in Hout. subst r. specialize (Hstep Hsub).
  exists sent, e, s', env'. auto.
Qed.


(** Against the same network, a dispatch that needs more retries than
    the interpreter has room for does not reach its budget: every
    activation there is room for makes its attempt, and the retry
    after the last of them is refused with [RecursionError]. *)
Lemma recursion_limit_cuts_retries Ω url n :
  always_raises Ω (Requests exceptions.RequestException) ->
  forall room t fr,
    ready fr url t n ->
    t + Z.of_nat room + 1 < n ->
    exists fr' calls,
      _make_request_within Ω room fr = Some (Raise RecursionError_, fr') /\
      request fr' !! "tried" = Some (VInt (t + Z.of_nat room + 1)) /\
      sent_during fr fr' calls /\
      map sent_attempt calls = count_from (t + 1) (S room).
Proof.
  intros Hnet room. induction room as [|room IH]; intros t fr Hr Hf;
    match goal with |- context [_make_request_within Ω ?r fr] =>
      destruct (persistent_failure_step Ω url n r t fr Hnet Hr)
        as (sent & e & s' & env' & Hw & Hsa & Hr' & Hstep)
    end;
    rewrite Hstep; (destruct (n <=? t + 1) eqn:Hle; [apply Z.leb_le in Hle; lia|]);
    cbn [again].
  - eexists _, [sent]. split; [reflexivity|]. split; [|split].
    + replace (t + Z.of_nat 0 + 1) with (t + 1) by lia. apply Hr'.
    + exact Hw.
    + cbn [map count_from]. rewrite Hsa. reflexivity.
  - set (fr1 := logged WARNING _ (after_attempt fr t s' env')) in *.
    assert (Hr1 : ready fr1 url (t + 1) n) by (apply logged_ready; exact Hr').
    destruct (IH (t + 1) fr1 Hr1 ltac:(lia)) as (fr' & calls & Hrun & Htried & Hsent & Hatt).
    exists fr', (sent :: calls). split; [exact Hrun|]. split; [|split].
    + rewrite Htried. f_equal. f_equal. lia.
    + unfold sent_during in *. rewrite Hsent. subst fr1.
      cbn [logged after_attempt env write_log wire].
      rewrite Hw, <- app_assoc. reflexivity.
    + cbn [map]. rewrite Hsa, Hatt. reflexivity.
Qed.


Lemma sample_frame_ready (n : Z) :
  ready (sample_frame (sample_request n)) "https://api.example.com/v1/things" 0 n.
Proof.
  split; try (eexists; reflexivity); try reflexivity.
  exists (VStr "/things"). split; reflexivity.
Qed.



(** *** The dispatch always comes to an end *)

(** An attempt ends.  Either it failed before counting (the counter is
    missing or not a number) with an exception that no clause
    handles, or it left the descriptor with its counter raised by
    one. *)
Lemma attempt_returns Ω url fr :
  exists r fr',
    attempt Ω url fr = Some (r, fr') /\
    ((request fr' = request fr /\
      exists e, r = Raise e /\
        issubclass (exn_class e) (Requests exceptions.RequestException) = false) \/
     (exists tv t,
        request fr !! "tried" = Some tv /\ as_int tv = Some t /\
        request fr' = assign (request fr) "tried" (VInt (t + 1)))).
Proof.
  unfold attempt, bind. unfold getattr_request at 1.
  destruct (request fr !! "tried") as [tv|] eqn:Htv;
    [|eexists _, _; split; [reflexivity|left; split; [reflexivity|]];
      eexists; split; reflexivity].
  unfold plus_one, lift. destruct (as_int tv) as [t|] eqn:Ht;
    [|eexists _, _; split; [reflexivity|left; split; [reflexivity|]];
      eexists; split; reflexivity].
  cbn [ret setattr_request].
  assert (Hright : forall (r : res Response) fr',
    request fr' = assign (request fr) "tried" (VInt (t + 1)) ->
    (request fr' = request fr /\
      exists e, r = Raise e /\
        issubclass (exn_class e) (Requests exceptions.RequestException) = false) \/
     (exists tv0 t0,
        Some tv = Some tv0 /\ as_int tv0 = Some t0 /\
        request fr' = assign (request fr) "tried" (VInt (t0 + 1)))).
  { intros r fr' H. right. exists tv, t. auto. }
  unfold self_session_request. cbn [request self env].
  destruct (session (self fr)) as [s|] eqn:Hs;
    [|eexists _, _; split; [reflexivity|apply Hright; reflexivity]].
  unfold getattr_request, session_request. cbn [request self env].
  repeat match goal with
  | |- context [match ?m !! ?k with _ => _ end] =>
      destruct (m !! k); [|eexists _, _; split; [reflexivity|apply Hright; reflexivity]]
  end.
  cbn [request self env]. rewrite Hs.
  match goal with |- context [Session.request Ω s ?c ?e] =>
    destruct (Session.request Ω s c e) as [[r s'] env'] end.
  eexists _, _; split; [reflexivity|apply Hright; reflexivity].
Qed.

(** An exception that is not a [requests] exception passes all six
    clauses and goes on to the caller. *)
Lemma handlers_pass url again e fr :
  issubclass (exn_class e) (Requests exceptions.RequestException) = false ->
  except_ (handlers url again) e fr = Some (Raise e, fr).
Proof.
  destruct e as [[[]|[]|[]] msg]; vm_compute; intros H; try discriminate H; reflexivity.
Qed.

(** The call of the first clause comes to an end when the activation
    it starts does. *)
Lemma again_returns Ω (room : nat) :
  (forall room' fr, (room' < room)%nat ->
     exists r fr', _make_request_within Ω room' fr = Some (r, fr')) ->
  forall fr, exists r fr', again Ω room fr = Some (r, fr').
Proof.
  intros IH fr. destruct room as [|room]; cbn [again]; [unfold raise; eauto|].
  apply IH. lia.
Qed.

Lemma _make_request_within_returns Ω (room : nat) (fr : Frame) :
  exists r fr', _make_request_within Ω room fr = Some (r, fr').
Proof.
  revert fr. induction room as [room IH] using lt_wf_ind. intros fr.
  pose proof (again_returns Ω room (fun room' fr' H => IH room' H fr')) as Hagain.
  rewrite _make_request_within_body. unfold bind at 1. unfold getattr_request at 1.
  destruct (request fr !! "path") as [path|]; [|eauto].
  unfold bind at 1. unfold self_construct_full_url.
  destruct (_construct_full_url _ _ path) as [url|e]; cbn [lift ret raise]; [|eauto].
  unfold try_except.
  destruct (attempt_returns Ω url fr) as (r & fr1 & Ha & Hreq). rewrite Ha.
  destruct r as [r|e]; [eauto|].
  destruct (issubclass (exn_class e) (Requests exceptions.RequestException)) eqn:Hsub;
    [|rewrite handlers_pass by exact Hsub; eauto].
  rewrite first_clause_catches by exact Hsub.
  destruct Hreq as [(_ & e' & [= <-] & He')|(tv & t & Htv & Ht & Hreq)]; [congruence|].
  unfold retry_or_raise, bind, getattr_request. rewrite Hreq. unfold assign.
  rewrite lookup_insert_eq. cbv beta iota. rewrite Hreq. unfold assign.
  rewrite lookup_insert_ne by done.
  destruct (request fr !! "max_retries") as [mv|] eqn:Hmv; [|eauto].
  unfold ge, lift. cbn [as_int]. destruct (as_int mv) as [m|] eqn:Hm; [|eauto].
  cbn [ret]. destruct (m <=? t + 1) eqn:Hle; [eauto|].
  unfold logging. apply Hagain.
Qed.

(** [_make_request] returns or raises on every frame: every retry
    runs with less room than the activation before it. *)
Lemma _make_request_returns Ω (fr : Frame) :
  exists r fr', _make_request Ω fr = Some (r, fr').
Proof. unfold _make_request. apply _make_request_within_returns. Qed.

(** *** The clauses after the first *)

(** An exception that any of the five later clauses names is already
    caught by the first one: the bodies of the later clauses are never
    run. *)
Lemma later_clauses_are_shadowed url again e :
  existsb (fun clause => isinstance_any e clause.1) (tl (handlers url again)) = true ->
  except_ (handlers url again) e = retry_or_raise url again e.
Proof.
  intros H. apply first_clause_catches. revert H.
  destruct e as [[[]|[]|[]] msg]; vm_compute; congruence.
Qed.

(** A [requests] exception met while budget remains sends the
    dispatch round again, whatever its class. *)
Lemma failure_with_budget_is_retried Ω fr url t n e :
  ready fr url t n ->
  t + 1 < n ->
  (forall sent, transport Ω (length (wire (env fr))) sent = Raise e) ->
  issubclass (exn_class e) (Requests exceptions.RequestException) = true ->
  exists fr1 sent,
    ready fr1 url (t + 1) n /\
    wire (env fr1) = (wire (env fr) ++ [sent])%list /\
    log (env fr1)
    = (log (env fr)
       ++ [(WARNING, ("Connection error occurred. Retrying request to " ++ url)%string)])%list /\
    forall room, _make_request_within Ω room fr = again Ω room fr1.
Proof.
  intros Hr Hlt Hnet Hsub.
  destruct (attempt_ready Ω fr url t n Hr) as (s & call & r & s' & env' & Hs & _ & _ & HS & Ha).
  destruct (Session_request_wire _ _ _ _ _ _ _ HS) as (sent & Hw & _ & _ & _ & Hout & Hlog).
  rewrite Hnet in Hout. subst r.
  exists (logged WARNING ("Connection error occurred. Retrying request to " ++ url)
            (after_attempt fr t s' env')), sent.
  split; [apply logged_ready, after_attempt_ready, Hr|].
  split; [exact Hw|]. split; [cbn; rewrite Hlog; reflexivity|].
  intros room. rewrite (_make_request_within_ready Ω room fr url t n Hr).
  unfold try_except. rewrite Ha, first_clause_catches by exact Hsub.
  rewrite (retry_or_raise_ready url _ e _ (t + 1) n)
    by (apply after_attempt_ready, Hr).
  destruct (n <=? t + 1) eqn:Hle; [apply Z.leb_le in Hle; lia|reflexivity].
Qed.

(** C1 (the code departs from the claim).  A descriptor with
    [max_retries = 2] whose first attempt meets a timeout: the dispatch
    does not end there with a [TimeoutError].  It logs a warning and
    makes a second attempt; when that one is answered, the answer is
    returned, and when the timeouts persist the dispatch ends with the
    first clause's [ConnectionError] after two attempts.  This holds
    for each of the three timeout classes the fourth clause names. *)
Theorem timeout_is_retried :
  Forall (fun c =>
    let once := _make_request (failing_once c) (sample_frame (sample_request 2)) in
    let ever := _make_request (always_failing c) (sample_frame (sample_request 2)) in
    outcome once = Some (answer 200 (Some (VDict ∅))) /\
    attempts once = Some [VInt 1; VInt 2] /\
    final_log once
    = Some [(WARNING, "Connection error occurred. Retrying request to "
                        ++ "https://api.example.com/v1/things")] /\
    outcome ever = Some (Raise connection_error_occurred) /\
    attempts ever = Some [VInt 1; VInt 2])
  [exceptions.Timeout; exceptions.ConnectTimeout; exceptions.ReadTimeout].
Proof. repeat constructor; vm_compute; reflexivity. Qed.

(** C7 (the code departs from the claim).  A descriptor with
    [max_retries = 2] whose first attempt meets a secure-transport
    failure: [SSLError] is a [requests] [ConnectionError], so the first
    clause takes it and, budget remaining, the dispatch logs a warning
    and tries again instead of failing at once; the answer to the
    second attempt is returned.  When the failure persists the
    dispatch ends after two attempts with the first clause's message,
    not the third clause's "Unable to connect to ...". *)
Theorem ssl_failure_is_retried :
  let once := _make_request (failing_once exceptions.SSLError)
                (sample_frame (sample_request 2)) in
  let ever := _make_request (always_failing exceptions.SSLError)
                (sample_frame (sample_request 2)) in
  outcome once = Some (answer 200 (Some (VDict ∅))) /\
  attempts once = Some [VInt 1; VInt 2] /\
  final_log once
  = Some [(WARNING, "Connection error occurred. Retrying request to "
                      ++ "https://api.example.com/v1/things")] /\
  outcome ever = Some (Raise (Exn (Errors errors.ConnectionError) "Connection error occurred.")) /\
  attempts ever = Some [VInt 1; VInt 2].
Proof. vm_compute. repeat split; reflexivity. Qed.

(** ** [connect] *)

(** [connect] turns what the dispatch did into a boolean: [true] for a
    response with status 200, [false] for any other response and for
    any exception. *)
Lemma connect_via_outcome (dispatch : M Response) fr o fr1 :
  dispatch (connect_frame fr) = Some (o, fr1) ->
  connect_via dispatch fr
  = Some (Ret match o with
              | Ret response => status_code response =? 200
              | Raise _ => false
              end, fr1).
Proof.
  intros Hd. unfold connect_via, try_except, bind.
  change (lift (connect_request (connect_endpoint (class_ (self fr)))) fr)
    with (Some (Ret (request (connect_frame fr)), fr)).
  cbv beta iota. unfold bind_request.
  change {| self := self fr; request := request (connect_frame fr); env := env fr |}
    with (connect_frame fr).
  rewrite Hd. destruct o as [response|e].
  - destruct (status_code response =? 200); reflexivity.
  - unfold except_, isinstance_any. cbn [List.find fst snd existsb].
    rewrite every_class_is_an_Exception. reflexivity.
Qed.

(** C5.  [connect] never lets a failure through.  Whatever
    [self._make_request] does on the GET descriptor -- return a
    response with any status or raise any exception, of the taxonomy
    or not -- [connect] returns a boolean, and that boolean is [true]
    exactly when the dispatch returned a response whose status code is
    200.  With the dispatch of this class, [connect] always comes to
    that end. *)
Theorem connect_never_raises :
  (forall (dispatch : M Response) fr o fr1,
     dispatch (connect_frame fr) = Some (o, fr1) ->
     exists b,
       connect_via dispatch fr = Some (Ret b, fr1) /\
       (b = true <-> exists response, o = Ret response /\ status_code response = 200) /\
       (forall e, o = Raise e -> b = false) /\
       (forall response, o = Ret response -> status_code response <> 200 -> b = false)) /\
  (forall Ω fr,
     exists b fr',
       connect Ω fr = Some (Ret b, fr') /\
       (b = true <-> exists response,
           outcome (_make_request Ω (connect_frame fr)) = Some (Ret response) /\
           status_code response = 200)).
Proof.
  assert (G : forall (dispatch : M Response) fr o fr1,
     dispatch (connect_frame fr) = Some (o, fr1) ->
     exists b,
       connect_via dispatch fr = Some (Ret b, fr1) /\
       (b = true <-> exists response, o = Ret response /\ status_code response = 200) /\
       (forall e, o = Raise e -> b = false) /\
       (forall response, o = Ret response -> status_code response <> 200 -> b = false)).
  { intros dispatch fr o fr1 Hd. eexists. split; [apply connect_via_outcome, Hd|].
    destruct o as [response|e].
    - split; [|split].
      + rewrite Z.eqb_eq. split; [eauto|]. intros (r & [= <-] & H). exact H.
      + discriminate.
      + intros r [= <-] H. apply Z.eqb_neq, H.
    - split; [|split].
      + split; [discriminate|]. intros (r & H & _). discriminate H.
      + reflexivity.
      + discriminate. }
  split; [exact G|].
  intros Ω fr.
  destruct (_make_request_returns Ω (connect_frame fr)) as (o & fr1 & Hrun).
  destruct (G (_make_request Ω) fr o fr1 Hrun) as (b & Hc & Hb & _).
  exists b, fr1. split; [exact Hc|]. rewrite Hb, Hrun. cbn.
  split; intros (r & H & Hs); exists r; split; congruence.
Qed.

(** With the GET descriptor ready to go, [connect] puts exactly one
    call on the network and answers [true] exactly when that call is
    answered with status 200. *)
Lemma connect_one_call Ω fr url :
  ready (connect_frame fr) url 0 1 ->
  exists b fr' sent,
    connect Ω fr = Some (Ret b, fr') /\
    wire (env fr') = (wire (env fr) ++ [sent])%list /\
    (b = true <-> exists response,
        transport Ω (length (wire (env fr))) sent = Ret response /\
        status_code response = 200).
Proof.
  intros Hr.
  destruct (attempt_ready Ω (connect_frame fr) url 0 1 Hr)
    as (s & call & o & s' & env' & _ & _ & _ & HS & Ha).
  destruct (Session_request_wire _ _ _ _ _ _ _ HS) as (sent & Hw & _ & _ & _ & Hout & _).
  change (env (connect_frame fr)) with (env fr) in *.
  set (fr1 := after_attempt (connect_frame fr) 0 s' env') in *.
  assert (Hrun : _make_request Ω (connect_frame fr)
                 = match o with
                   | Ret response => Some (Ret response, fr1)
                   | Raise e =>
                       except_ (handlers url (again Ω (stack Ω))) e fr1
                   end).
  { unfold _make_request. rewrite (_make_request_within_ready Ω _ _ url 0 1 Hr).
    unfold try_except. rewrite Ha. destruct o; reflexivity. }
  assert (Hno : forall e, o = Raise e ->
            false = true <-> exists response,
              transport Ω (length (wire (env fr))) sent = Ret response /\
              status_code response = 200).
  { intros e ->. rewrite <- Hout. split; [discriminate|]. intros (r & H & _). discriminate H. }
  destruct o as [response|e].
  - exists (status_code response =? 200), fr1, sent.
    split; [apply (connect_via_outcome _ fr (Ret response)), Hrun|].
    split; [exact Hw|]. rewrite <- Hout, Z.eqb_eq.
    split; [eauto|]. intros (r & [= <-] & H). exact H.
  - destruct (issubclass (exn_class e) (Requests exceptions.RequestException)) eqn:Hsub.
    + rewrite first_clause_catches in Hrun by exact Hsub.
      rewrite (retry_or_raise_ready url _ e _ 1 1) in Hrun
        by (apply (after_attempt_ready _ url 0 1), Hr).
      change (1 <=? 1) with true in Hrun. cbv iota in Hrun.
      eexists false, _, sent.
      split; [apply (connect_via_outcome _ fr (Raise connection_error_occurred)), Hrun|].
      split; [exact Hw|]. apply (Hno e). reflexivity.
    + rewrite handlers_pass in Hrun by exact Hsub.
      eexists false, _, sent.
      split; [apply (connect_via_outcome _ fr (Raise e)), Hrun|].
      split; [exact Hw|]. apply (Hno e). reflexivity.
Qed.

(** ** Dictionaries *)

Lemma dict_lookup_cons (k : string) (v : value) (d : dict) (key : string) :
  ((k, v) :: d : dict) !! key = if String.eqb k key then Some v else d !! key.
Proof. reflexivity. Qed.

Lemma dict_lookup_None (d : dict) (key : string) : d !! key = None <-> key ∉ d.*1.
Proof.
  induction d as [|[k v] d IH].
  - split; [intros _; apply not_elem_of_nil|reflexivity].
  - rewrite dict_lookup_cons. cbn [fmap list_fmap fst]. rewrite not_elem_of_cons.
    destruct (String.eqb_spec k key) as [->|Hne].
    + split; [discriminate|]. intros [H _]. congruence.
    + rewrite IH. split; [intros H; split; [congruence|exact H]|intros [_ H]; exact H].
Qed.

Lemma dict_lookup_Some (d : dict) (key : string) (v : value) :
  d !! key = Some v -> (key, v) ∈ d.
Proof.
  induction d as [|[k w] d IH]; [discriminate|].
  rewrite dict_lookup_cons. destruct (String.eqb_spec k key) as [->|Hne].
  - intros [= ->]. apply list_elem_of_here.
  - intros H. apply list_elem_of_further, IH, H.
Qed.

(** An object whose [__dict__] is the dictionary [d] has the entries
    of [d] for its attributes. *)
Lemma attributes_of_lookup (d : dict) (key : string) : attributes_of d !! key = d !! key.
Proof.
  induction d as [|[k v] d IH]; [apply lookup_empty|].
  unfold attributes_of. rewrite list_to_map_cons. fold (attributes_of d).
  rewrite dict_lookup_cons. destruct (String.eqb_spec k key) as [->|Hne].
  - apply lookup_insert_eq.
  - rewrite lookup_insert_ne by exact Hne. exact IH.
Qed.

Lemma dict_update_lookup_eq (d : dict) (key : string) (v : value) :
  dict_update d key v !! key = Some v.
Proof.
  induction d as [|[k w] d IH]; cbn [dict_update].
  - rewrite dict_lookup_cons, String.eqb_refl. reflexivity.
  - destruct (String.eqb k key) eqn:E; rewrite dict_lookup_cons, E; [reflexivity|exact IH].
Qed.

Lemma dict_update_lookup_ne (d : dict) (key key' : string) (v : value) :
  key <> key' -> dict_update d key v !! key' = d !! key'.
Proof.
  intros Hne. induction d as [|[k w] d IH]; cbn [dict_update].
  - rewrite dict_lookup_cons. destruct (String.eqb_spec key key'); [contradiction|reflexivity].
  - destruct (String.eqb_spec k key) as [->|Hk]; rewrite !dict_lookup_cons.
    + destruct (String.eqb_spec key key'); [contradiction|reflexivity].
    + rewrite IH. reflexivity.
Qed.

(** A key that is new goes to the end. *)
Lemma dict_update_absent (d : dict) (key : string) (v : value) :
  d !! key = None -> dict_update d key v = (d ++ [(key, v)])%list.
Proof.
  induction d as [|[k w] d IH]; [reflexivity|].
  rewrite dict_lookup_cons. cbn [dict_update app].
  destruct (String.eqb k key); [discriminate|]. intros H. rewrite (IH H). reflexivity.
Qed.

(** A key that is present keeps its place. *)
Lemma dict_update_present (before after : dict) (key : string) (x v : value) :
  key ∉ before.*1 ->
  dict_update (before ++ (key, x) :: after)%list key v = (before ++ (key, v) :: after)%list.
Proof.
  induction before as [|[k w] before IH]; cbn [app dict_update fmap list_fmap fst].
  - intros _. rewrite String.eqb_refl. reflexivity.
  - rewrite not_elem_of_cons. intros [Hne H].
    destruct (String.eqb_spec k key); [congruence|]. rewrite (IH H). reflexivity.
Qed.

(** ** Keyword arguments as attributes *)

Lemma special_false (key : string) :
  special key = false <->
  key <> "__dict__" /\ key <> "__class__" /\ key <> "__weakref__".
Proof.
  unfold special. rewrite bool_decide_eq_false, !not_elem_of_cons.
  split; [intros (H1 & H2 & H3 & _); auto|intros (H1 & H2 & H3)].
  repeat (split; [assumption|]). apply not_elem_of_nil.
Qed.

(** Under an ordinary name [setattr] is the plain assignment. *)
Lemma setattr_ordinary (self : obj) (key : string) (v : value) :
  special key = false -> setattr self key v = Ret (assign self key v).
Proof.
  rewrite special_false. intros (H1 & H2 & H3). unfold setattr.
  destruct (String.eqb_spec key "__dict__"); [contradiction|].
  destruct (String.eqb_spec key "__class__"); [contradiction|].
  destruct (String.eqb_spec key "__weakref__"); [contradiction|reflexivity].
Qed.

(** When [setattr] goes through, the name was an ordinary one or it
    was [__dict__] with a dictionary, which the object then has for its
    attributes. *)
Lemma setattr_returns (self : obj) (key : string) (v : value) (o : obj) :
  setattr self key v = Ret o ->
  (key = "__dict__" /\ exists d, v = VDict d /\ o = attributes_of d) \/
  (special key = false /\ o = assign self key v).
Proof.
  unfold setattr. destruct (String.eqb_spec key "__dict__") as [->|H1].
  - destruct v; try discriminate. intros [= <-]. left. eauto.
  - destruct (String.eqb_spec key "__class__") as [->|H2]; [discriminate|].
    destruct (String.eqb_spec key "__weakref__") as [->|H3]; [discriminate|].
    intros [= <-]. right. split; [apply special_false; auto|reflexivity].
Qed.

(** What [setattr] raises is a [TypeError] or an [AttributeError]. *)
Lemma setattr_raises (self : obj) (key : string) (v : value) (e : exn) :
  setattr self key v = Raise e -> raised_by_python e.
Proof.
  unfold setattr, raised_by_python.
  destruct (String.eqb key "__dict__").
  - destruct v; intros [= <-]; right; reflexivity.
  - destruct (String.eqb key "__class__"); [intros [= <-]; right; reflexivity|].
    destruct (String.eqb key "__weakref__"); [intros [= <-]; left; reflexivity|discriminate].
Qed.

Lemma apply_kwargs_cons (self : obj) (k : string) (v : value) (kwargs : dict) :
  apply_kwargs self ((k, v) :: kwargs)
  = match setattr self k v with
    | Ret self' => apply_kwargs self' kwargs
    | Raise e => Raise e
    end.
Proof. reflexivity. Qed.

Lemma apply_kwargs_app (self : obj) (l1 l2 : dict) :
  apply_kwargs self (l1 ++ l2)%list
  = match apply_kwargs self l1 with
    | Ret o => apply_kwargs o l2
    | Raise e => Raise e
    end.
Proof.
  revert self. induction l1 as [|[k v] l1 IH]; intros self; [reflexivity|].
  cbn [app]. rewrite !apply_kwargs_cons. destruct (setattr self k v); [apply IH|reflexivity].
Qed.

Lemma apply_kwargs_raises (kwargs : dict) (self : obj) (e : exn) :
  apply_kwargs self kwargs = Raise e -> raised_by_python e.
Proof.
  revert self. induction kwargs as [|[k v] kwargs IH]; intros self; [discriminate|].
  rewrite apply_kwargs_cons. destruct (setattr self k v) as [self'|e'] eqn:E.
  - apply IH.
  - intros [= <-]. exact (setattr_raises _ _ _ _ E).
Qed.

Lemma bind_all_cons (self : obj) (k : string) (v : value) (kwargs : dict) :
  bind_all self ((k, v) :: kwargs) = bind_all (assign self k v) kwargs.
Proof. reflexivity. Qed.

(** Keywords with ordinary names are bound one after the other. *)
Lemma apply_kwargs_ordinary (kwargs : dict) (self : obj) :
  ordinary kwargs -> apply_kwargs self kwargs = Ret (bind_all self kwargs).
Proof.
  revert self. induction kwargs as [|[k v] kwargs IH]; intros self H; [reflexivity|].
  apply Forall_cons in H as [Hk H]. cbn [fst] in Hk.
  rewrite apply_kwargs_cons, (setattr_ordinary _ _ _ Hk), bind_all_cons. apply IH, H.
Qed.

(** A loop that goes through without meeting the key [__dict__] has
    met ordinary names only. *)
Lemma apply_kwargs_without_dict (kwargs : dict) (self o : obj) :
  apply_kwargs self kwargs = Ret o -> "__dict__" ∉ kwargs.*1 -> ordinary kwargs.
Proof.
  revert self. induction kwargs as [|[k v] kwargs IH]; intros self; [constructor|].
  rewrite apply_kwargs_cons. cbn [fmap list_fmap fst]. rewrite not_elem_of_cons.
  destruct (setattr self k v) as [self'|e] eqn:E; [|discriminate].
  intros Hrun [Hne Hno].
  destruct (setattr_returns _ _ _ _ E) as [(-> & _)|(Hk & _)]; [congruence|].
  constructor; [exact Hk|]. exact (IH _ Hrun Hno).
Qed.

(** A name that is not among the keywords keeps its value. *)
Lemma bind_all_other (kwargs : dict) (self : obj) (k : string) :
  k ∉ kwargs.*1 -> bind_all self kwargs !! k = self !! k.
Proof.
  revert self. induction kwargs as [|[k' v'] kwargs IH]; intros self Hk; [reflexivity|].
  rewrite bind_all_cons. cbn [fmap list_fmap fst] in Hk.
  apply not_elem_of_cons in Hk as [Hne Hk].
  rewrite IH by exact Hk. unfold assign. apply lookup_insert_ne. congruence.
Qed.

(** A keyword becomes the attribute of its name, whatever the object
    held under that name before. *)
Lemma bind_all_lookup (kwargs : dict) (self : obj) (k : string) (v : value) :
  NoDup kwargs.*1 -> (k, v) ∈ kwargs -> bind_all self kwargs !! k = Some v.
Proof.
  revert self. induction kwargs as [|[k' v'] kwargs IH]; intros self Hnd Hin.
  - inversion Hin.
  - rewrite bind_all_cons. cbn [fmap list_fmap fst] in Hnd.
    apply NoDup_cons in Hnd as [Hk' Hnd].
    apply elem_of_cons in Hin as [[= -> ->]|Hin].
    + rewrite bind_all_other by exact Hk'. apply lookup_insert_eq.
    + apply IH; assumption.
Qed.

(** Setting the entries of a dictionary one by one on an empty object
    gives an object with exactly these attributes. *)
Lemma bind_all_attributes (d : dict) :
  NoDup d.*1 -> bind_all ∅ d = attributes_of d.
Proof.
  intros Hnd. apply map_eq. intros k. rewrite attributes_of_lookup.
  destruct (d !! k) as [v|] eqn:Hk.
  - apply bind_all_lookup; [exact Hnd|]. apply dict_lookup_Some, Hk.
  - rewrite bind_all_other; [apply lookup_empty|]. apply dict_lookup_None, Hk.
Qed.

(** The last word on a name: a keyword that is not [__dict__], and
    after which neither [__dict__] nor its own name comes again, is
    the attribute of its name at the end of the loop. *)
Lemma apply_kwargs_keyword (self o : obj) (before after : dict) (k : string) (v : value) :
  apply_kwargs self (before ++ (k, v) :: after)%list = Ret o ->
  k <> "__dict__" -> "__dict__" ∉ after.*1 -> k ∉ after.*1 ->
  o !! k = Some v.
Proof.
  rewrite apply_kwargs_app. destruct (apply_kwargs self before) as [o1|]; [|discriminate].
  rewrite apply_kwargs_cons. destruct (setattr o1 k v) as [o2|] eqn:E; [|discriminate].
  intros Hrun Hk Hno Hlast.
  destruct (setattr_returns _ _ _ _ E) as [(-> & _)|(_ & ->)]; [congruence|].
  rewrite (apply_kwargs_ordinary after) in Hrun
    by exact (apply_kwargs_without_dict _ _ _ Hrun Hno).
  injection Hrun as <-. rewrite bind_all_other by exact Hlast. apply lookup_insert_eq.
Qed.

(** ** [BackendResponse] *)

(** What the construction of a [BackendResponse] raises is a
    [TypeError] or an [AttributeError]. *)
Lemma BackendResponse_new_raises (info : dict) (e : exn) :
  BackendResponse.new info = Raise e -> raised_by_python e.
Proof.
  unfold BackendResponse.new, BackendResponse.__init__.
  destruct (info !! "self"); [intros [= <-]; right; reflexivity|].
  apply apply_kwargs_raises.
Qed.

(** A dictionary of ordinary keys, [self] not among them, becomes an
    object with the dictionary's entries for its attributes. *)
Lemma BackendResponse_new_ordinary (info : dict) :
  NoDup info.*1 -> ordinary info -> info !! "self" = None ->
  BackendResponse.new info = Ret (attributes_of info).
Proof.
  intros Hnd Hord Hself. unfold BackendResponse.new, BackendResponse.__init__.
  rewrite Hself, apply_kwargs_ordinary by exact Hord.
  rewrite bind_all_attributes by exact Hnd. reflexivity.
Qed.

Lemma dict_update_NoDup (d : dict) (key : string) (v : value) :
  NoDup d.*1 -> NoDup (dict_update d key v).*1.
Proof.
  induction d as [|[k w] d IH]; cbn [dict_update fmap list_fmap fst].
  - intros _. apply NoDup_singleton.
  - rewrite NoDup_cons. intros [Hk Hnd].
    destruct (String.eqb_spec k key) as [->|Hne]; cbn [fmap list_fmap fst].
    + apply NoDup_cons. auto.
    + apply NoDup_cons. split; [|apply IH, Hnd].
      apply dict_lookup_None. rewrite dict_update_lookup_ne by congruence.
      apply dict_lookup_None, Hk.
Qed.

Lemma dict_update_ordinary (d : dict) (key : string) (v : value) :
  special key = false -> ordinary d -> ordinary (dict_update d key v).
Proof.
  intros Hkey. induction d as [|[k w] d IH]; cbn [dict_update].
  - intros _. repeat constructor. exact Hkey.
  - intros H. apply Forall_cons in H as [Hk H]. cbn [fst] in Hk.
    destruct (String.eqb k key); (constructor; [exact Hk|]); [exact H|apply IH, H].
Qed.

Lemma attributes_of_update (d : dict) (key : string) (v : value) :
  attributes_of (dict_update d key v) = <[key := v]> (attributes_of d).
Proof.
  apply map_eq. intros k. rewrite attributes_of_lookup.
  destruct (decide (key = k)) as [->|Hne].
  - rewrite dict_update_lookup_eq, lookup_insert_eq. reflexivity.
  - rewrite dict_update_lookup_ne, lookup_insert_ne by exact Hne.
    symmetry. apply attributes_of_lookup.
Qed.

(** ** [make_request] *)

(** What [make_request] makes of the dispatch's outcome when it is
    called without keywords. *)
Lemma make_request_via_outcome (dispatch : M Response) path fr o fr1 :
  dispatch (with_request path fr) = Some (o, fr1) ->
  make_request_via dispatch path [] fr
  = match o with
    | Raise e => Some (Raise e, fr1)
    | Ret response =>
        match json_of_body response with
        | None => Some (Raise invalid_response_from_backend,
                        logged ERROR "Expecting value" fr1)
        | Some (VDict d) =>
            Some (BackendResponse.new
                    (dict_update d "status_code" (VInt (status_code response))), fr1)
        | Some _ => Some (Raise (AttributeError_ "object has no attribute 'update'"), fr1)
        end
    end.
Proof.
  intros Hd. unfold make_request_via, call__make_request, bind at 1.
  unfold bind at 1. unfold bind_request. fold (with_request path fr). rewrite Hd.
  destruct o as [response|e]; [|reflexivity].
  unfold try_except, bind, Response_json.
  destruct (json_of_body response) as [info|]; [|reflexivity].
  cbn [lift ret]. unfold update_status_code.
  destruct info as [| | | | |d]; try reflexivity.
  cbn [lift ret].
  destruct (BackendResponse.new _) as [envelope|e] eqn:Hnew; [reflexivity|].
  cbn [lift raise].
  destruct (BackendResponse_new_raises _ _ Hnew) as [He|He];
    unfold except_, isinstance_any; cbn [List.find fst snd existsb]; rewrite He;
    reflexivity.
Qed.

(** Called with any keyword, [make_request] raises [TypeError] before
    anything is dispatched. *)
Lemma make_request_via_keyword (dispatch : M Response) path key v kwargs fr :
  make_request_via dispatch path ((key, v) :: kwargs) fr
  = Some (Raise (TypeError_ ("_make_request() got an unexpected keyword argument " ++ key)), fr).
Proof. reflexivity. Qed.

(** What holds of [make_request] when it is called with a descriptor
    and no keyword: a body that is a JSON object with ordinary keys,
    [self] not among them, becomes the envelope, with [status_code]
    set to the HTTP status; a body that is not JSON ends in
    [InvalidResponse]; a failure of the dispatch goes on to the
    caller. *)
Lemma make_request_envelope Ω path fr o fr1 :
  _make_request Ω (with_request path fr) = Some (o, fr1) ->
  (forall response d,
     o = Ret response -> json_of_body response = Some (VDict d) ->
     NoDup d.*1 -> ordinary d -> d !! "self" = None ->
     make_request Ω path [] fr
     = Some (Ret (<["status_code" := VInt (status_code response)]> (attributes_of d)), fr1)) /\
  (forall response,
     o = Ret response -> json_of_body response = None ->
     make_request Ω path [] fr
     = Some (Raise invalid_response_from_backend, logged ERROR "Expecting value" fr1)) /\
  (forall e, o = Raise e -> make_request Ω path [] fr = Some (Raise e, fr1)).
Proof.
  intros Hd. unfold make_request.
  rewrite (make_request_via_outcome _ path fr o fr1 Hd).
  split; [|split].
  - intros response d -> -> Hnd Hord Hself.
    rewrite BackendResponse_new_ordinary.
    + rewrite attributes_of_update. reflexivity.
    + apply dict_update_NoDup, Hnd.
    + apply dict_update_ordinary; [reflexivity|exact Hord].
    + rewrite dict_update_lookup_ne by done. exact Hself.
  - intros response -> ->. reflexivity.
  - intros e ->. reflexivity.
Qed.

(** The spec's example: the body [{"a": 1}] with status 201 gives the
    envelope [{"a": 1, "status_code": 201}]; a body that is not JSON
    gives [InvalidResponse]. *)
Example make_request_201 :
  outcome (make_request (answering 201 (Some (VDict {["a" := VInt 1]})))
             (sample_request 1) [] (sample_frame ∅))
  = Some (Ret (<["a" := VInt 1]> {["status_code" := VInt 201]})) /\
  outcome (make_request (answering 200 None) (sample_request 1) [] (sample_frame ∅))
  = Some (Raise invalid_response_from_backend).
Proof. vm_compute. split; reflexivity. Qed.

(** C3 (the code departs from the claim).  Three calls on which
    [make_request] does not do what the claim says.  Called with a
    keyword, as its signature invites, it raises [TypeError] and
    nothing is dispatched.  Called with a descriptor alone, a body that
    is the JSON object [{"self": 1}] does not come back as an envelope
    but as a [TypeError], and a body that is the JSON list [[1]] ends
    in [AttributeError], not in [InvalidResponse]. *)
Theorem make_request_departures :
  let with_keyword :=
    make_request (answering 201 (Some (VDict {["a" := VInt 1]})))
      (sample_request 1) [("timeout", VInt 3)] (sample_frame ∅) in
  let self_key :=
    make_request (answering 200 (Some (VDict {["self" := VInt 1]})))
      (sample_request 1) [] (sample_frame ∅) in
  let json_list :=
    make_request (answering 200 (Some (VList [VInt 1])))
      (sample_request 1) [] (sample_frame ∅) in
  outcome with_keyword
  = Some (Raise (TypeError_ "_make_request() got an unexpected keyword argument timeout")) /\
  attempts with_keyword = Some [] /\
  outcome self_key
  = Some (Raise (TypeError_ "__init__() got multiple values for argument self")) /\
  attempts self_key = Some [VInt 1] /\
  outcome json_list
  = Some (Raise (AttributeError_ "object has no attribute 'update'")).
Proof. vm_compute. repeat split; reflexivity. Qed.

(** The envelope that [make_request] returns is what [BackendResponse]
    makes of the body's object after the merge. *)
Lemma make_request_via_returns (dispatch : M Response) path kwargs fr envelope fr' :
  make_request_via dispatch path kwargs fr = Some (Ret envelope, fr') ->
  exists response d,
    outcome (dispatch (with_request path fr)) = Some (Ret response) /\
    json_of_body response = Some (VDict d) /\
    BackendResponse.__init__ ∅ (dict_update d "status_code" (VInt (status_code response)))
    = Ret envelope.
Proof.
  destruct kwargs as [|[key v] kwargs]; [|rewrite make_request_via_keyword; discriminate].
  destruct (dispatch (with_request path fr)) as [[o fr1]|] eqn:Hd.
  - rewrite (make_request_via_outcome _ path fr o fr1 Hd).
    destruct o as [response|e]; [|discriminate].
    destruct (json_of_body response) as [[| | | | |d]|] eqn:Hj; try discriminate.
    unfold BackendResponse.new.
    destruct (dict_update d "status_code" _ !! "self"); [discriminate|].
    intros [= Hnew <-]. exists response, d. auto.
  - unfold make_request_via, call__make_request, bind at 1.
    unfold bind at 1. unfold bind_request. fold (with_request path fr). rewrite Hd.
    discriminate.
Qed.

(** C9 (amended).  Whenever [make_request] returns an envelope, the
    dispatch had returned a response whose body is a JSON object, and
    the envelope's [status_code] is the HTTP status in each of these
    cases: the body has no [status_code] of its own; or it has one,
    which the merge overwrites, and no key [__dict__] comes after
    it. *)
Theorem envelope_status_code (dispatch : M Response) path kwargs fr envelope fr' :
  make_request_via dispatch path kwargs fr = Some (Ret envelope, fr') ->
  exists response d,
    outcome (dispatch (with_request path fr)) = Some (Ret response) /\
    json_of_body response = Some (VDict d) /\
    (d !! "status_code" = None ->
     envelope !! "status_code" = Some (VInt (status_code response))) /\
    (forall before x after,
       d = (before ++ ("status_code", x) :: after)%list ->
       NoDup d.*1 -> "__dict__" ∉ after.*1 ->
       envelope !! "status_code" = Some (VInt (status_code response))).
Proof.
  intros Hrun.
  destruct (make_request_via_returns _ _ _ _ _ _ Hrun) as (response & d & Hout & Hj & Hnew).
  exists response, d. split; [exact Hout|]. split; [exact Hj|].
  unfold BackendResponse.__init__ in Hnew. split.
  - intros Hnone. rewrite (dict_update_absent _ _ _ Hnone) in Hnew.
    apply (apply_kwargs_keyword ∅ envelope d [] _ _ Hnew); [done| |];
      apply not_elem_of_nil.
  - intros before x after -> Hnd Hno.
    rewrite fmap_app in Hnd. cbn [fmap list_fmap fst] in Hnd.
    apply NoDup_app in Hnd as (_ & Hbefore & Hafter).
    apply NoDup_cons in Hafter as [Hlast _].
    rewrite dict_update_present in Hnew.
    + apply (apply_kwargs_keyword ∅ envelope before after _ _ Hnew); [done|exact Hno|exact Hlast].
    + intros Hin. apply (Hbefore _ Hin). apply list_elem_of_here.
Qed.

Lemma envelope_status_code_witness :
  exists response d,
    outcome (_make_request (answering 200 (Some (VDict {["status_code" := VInt 999]})))
               (with_request (sample_request 1) (sample_frame ∅)))
    = Some (Ret response) /\
    json_of_body response = Some (VDict d) /\
    (d !! "status_code" = None ->
     ({["status_code" := VInt 200]} : obj) !! "status_code"
     = Some (VInt (status_code response))) /\
    (forall before x after,
       d = (before ++ ("status_code", x) :: after)%list ->
       NoDup d.*1 -> "__dict__" ∉ after.*1 ->
       ({["status_code" := VInt 200]} : obj) !! "status_code"
       = Some (VInt (status_code response))).
Proof.
  eapply (envelope_status_code
            (_make_request (answering 200 (Some (VDict {["status_code" := VInt 999]}))))
            (sample_request 1) [] (sample_frame ∅)).
  vm_compute. reflexivity.
Defined.

(** The claim as it stands fails: the body
    [{"status_code": 1, "__dict__": {"status_code": 1}}] arriving with
    the HTTP status 200 parses as a mapping and gives an envelope, and
    the envelope's [status_code] is 1.  The merge did put 200 in the
    place of the body's [status_code], but the entry [__dict__], which
    is replayed after it, made its own dictionary the envelope's
    attributes. *)
Lemma envelope_status_code_replaced :
  let body := VDict [("status_code", VInt 1);
                     ("__dict__", VDict [("status_code", VInt 1)])] in
  exists envelope,
    outcome (make_request (answering 200 (Some body)) (sample_request 1) [] (sample_frame ∅))
    = Some (Ret envelope) /\
    envelope !! "status_code" = Some (VInt 1) /\
    envelope !! "status_code" <> Some (VInt 200).
Proof.
  eexists. split; [vm_compute; reflexivity|].
  split; [vm_compute; reflexivity|vm_compute; discriminate].
Qed.

(** ** [BackendRequest] *)

(** A call that goes through has no keyword named like a parameter:
    [tried] is the only core field a keyword can meet. *)
Lemma keywords_avoid_parameters method path params data json headers max_retries kwargs o :
  BackendRequest.new method path params data json headers max_retries kwargs = Ret o ->
  forall k v, (k, v) ∈ kwargs -> k ∉ BackendRequest.parameters.
Proof.
  unfold BackendRequest.new.
  destruct (List.find _ kwargs) as [kv|] eqn:Hfind; [discriminate|].
  intros _ k v Hin Hk.
  apply list_elem_of_In in Hin.
  pose proof (find_none _ _ Hfind _ Hin) as Hnone. cbn [fst] in Hnone.
  apply bool_decide_eq_false in Hnone. contradiction.
Qed.

(** A construction that goes through has run the loop over the
    keywords on the eight core fields. *)
Lemma BackendRequest_new_returns method path params data json headers max_retries kwargs o :
  BackendRequest.new method path params data json headers max_retries kwargs = Ret o ->
  apply_kwargs
    (BackendRequest.core_fields ∅ method path params data json headers max_retries) kwargs
  = Ret o.
Proof.
  unfold BackendRequest.new. destruct (List.find _ kwargs); [discriminate|].
  intros H. exact H.
Qed.

(** Without keywords the descriptor is its core fields. *)
Lemma BackendRequest_new_plain method path params data json headers max_retries :
  BackendRequest.new method path params data json headers max_retries []
  = Ret (BackendRequest.core_fields ∅ method path params data json headers max_retries).
Proof. reflexivity. Qed.

(** C10 (amended).  In the construction of a [BackendRequest] the
    keywords are applied after the core fields are set, one after the
    other.  So a keyword ends up as the attribute of its name, also
    when a core field of that name was set just before, provided that
    no keyword [__dict__] comes after it; and when there is no keyword
    [__dict__] at all, a core field that no keyword names keeps its
    initial value.  In particular the keyword [tried=5] gives a
    descriptor whose counter starts at 5 and not at 0, and whose first
    attempt goes out with the counter at 6. *)
Theorem keywords_override_core_fields :
  (forall method path params data json headers max_retries kwargs o,
     NoDup kwargs.*1 ->
     BackendRequest.new method path params data json headers max_retries kwargs = Ret o ->
     (forall before k v after,
        kwargs = (before ++ (k, v) :: after)%list ->
        k <> "__dict__" -> "__dict__" ∉ after.*1 ->
        o !! k = Some v) /\
     ("__dict__" ∉ kwargs.*1 -> "tried" ∉ kwargs.*1 -> o !! "tried" = Some (VInt 0)) /\
     ("__dict__" ∉ kwargs.*1 -> o !! "max_retries" = Some max_retries)) /\
  (exists o,
     BackendRequest.new (VStr "GET") (VStr "/things") VNone VNone VNone VNone (VInt 1)
       [("tried", VInt 5)] = Ret o /\
     o !! "tried" = Some (VInt 5) /\
     attempts (_make_request (answering 200 None) (sample_frame o)) = Some [VInt 6]).
Proof.
  split.
  - intros method path params data json headers max_retries kwargs o Hnd Hnew.
    pose proof (keywords_avoid_parameters _ _ _ _ _ _ _ _ _ Hnew) as Hpar.
    apply BackendRequest_new_returns in Hnew.
    assert (Hplain : "__dict__" ∉ kwargs.*1 ->
              o = bind_all (BackendRequest.core_fields ∅ method path params data json
                              headers max_retries) kwargs).
    { intros Hno. rewrite (apply_kwargs_ordinary kwargs) in Hnew
        by exact (apply_kwargs_without_dict _ _ _ Hnew Hno).
      congruence. }
    split; [|split].
    + intros before k v after -> Hk Hno.
      rewrite fmap_app in Hnd. cbn [fmap list_fmap fst] in Hnd.
      apply NoDup_app in Hnd as (_ & _ & Hafter).
      apply NoDup_cons in Hafter as [Hlast _].
      exact (apply_kwargs_keyword _ _ _ _ _ _ Hnew Hk Hno Hlast).
    + intros Hno Hk. rewrite (Hplain Hno), bind_all_other by exact Hk.
      apply lookup_insert_eq.
    + intros Hno. rewrite (Hplain Hno), bind_all_other.
      * unfold BackendRequest.core_fields, assign.
        rewrite lookup_insert_ne by done. apply lookup_insert_eq.
      * intros Hin. apply list_elem_of_fmap in Hin as ([k v] & Hk & Hin).
        cbn [fst] in Hk. subst k. apply (Hpar _ _ Hin). unfold BackendRequest.parameters.
        set_solver.
  - eexists. split; [reflexivity|]. split; vm_compute; reflexivity.
Qed.

(** A descriptor as the constructor makes it, with a string for its
    path, an integer budget and neither [tried] nor [__dict__] among
    its keywords, on a backend that has its session and strings for
    its base and prefix, is ready for dispatch with its counter at
    0. *)
Lemma constructed_descriptor_ready
    method path params data json headers n kwargs o cls b p s env0 :
  BackendRequest.new method (VStr path) params data json headers (VInt n) kwargs = Ret o ->
  "tried" ∉ kwargs.*1 ->
  "__dict__" ∉ kwargs.*1 ->
  base_url cls = VStr b ->
  ready {| self := {| class_ := cls; url_prefix := VStr p; session := Some s |};
           request := o; env := env0 |}
        (buildFullUrl b p path) 0 n.
Proof.
  intros Hnew Htried Hno Hb.
  pose proof (keywords_avoid_parameters _ _ _ _ _ _ _ _ _ Hnew) as Hpar.
  assert (Hout : forall k, k ∈ BackendRequest.parameters -> k ∉ kwargs.*1).
  { intros k Hk Hin. apply list_elem_of_fmap in Hin as ([k' v] & -> & Hin).
    exact (Hpar _ _ Hin Hk). }
  apply BackendRequest_new_returns in Hnew.
  rewrite (apply_kwargs_ordinary kwargs) in Hnew
    by exact (apply_kwargs_without_dict _ _ _ Hnew Hno).
  injection Hnew as <-.
  unfold BackendRequest.core_fields, BackendRequest.parameters in *.
  split; cbn [request self class_ url_prefix session];
    try (rewrite bind_all_other by (first [exact Htried | apply Hout; set_solver]);
         unfold assign; rewrite ?lookup_insert_ne by done; rewrite lookup_insert_eq; eauto).
  - exists (VStr path). split; [reflexivity|]. rewrite Hb. apply construct_full_url_strings.
  - eexists. reflexivity.
Qed.

Lemma keywords_override_core_fields_witness :
  let o := bind_all (BackendRequest.core_fields ∅ (VStr "GET") (VStr "/things")
                       VNone VNone VNone VNone (VInt 1))
             [("tried", VInt 5); ("timeout", VInt 30)] in
  (forall before k v after,
     [("tried", VInt 5); ("timeout", VInt 30)] = (before ++ (k, v) :: after)%list ->
     k <> "__dict__" -> "__dict__" ∉ after.*1 ->
     o !! k = Some v) /\
  ("__dict__" ∉ [("tried", VInt 5); ("timeout", VInt 30)].*1 ->
   "tried" ∉ [("tried", VInt 5); ("timeout", VInt 30)].*1 -> o !! "tried" = Some (VInt 0)) /\
  ("__dict__" ∉ [("tried", VInt 5); ("timeout", VInt 30)].*1 ->
   o !! "max_retries" = Some (VInt 1)).
Proof.
  apply (proj1 keywords_override_core_fields
           (VStr "GET") (VStr "/things") VNone VNone VNone VNone (VInt 1)
           [("tried", VInt 5); ("timeout", VInt 30)]).
  - refine (bool_decide_unpack _ _). vm_compute. exact I.
  - reflexivity.
Defined.

(** The claim as it stands fails: in
    [BackendRequest("GET", "/things", tried=5, __dict__={})] the
    keyword [tried] names a core field, and yet the descriptor that
    comes out has no counter at all, neither the keyword's 5 nor the
    initial 0: the keyword [__dict__], applied after it, put an empty
    dictionary in the place of all the attributes. *)
Lemma keyword_tried_wiped_by_dict :
  exists o,
    BackendRequest.new (VStr "GET") (VStr "/things") VNone VNone VNone VNone (VInt 1)
      [("tried", VInt 5); ("__dict__", VDict [])] = Ret o /\
    o !! "tried" = None /\
    o !! "tried" <> Some (VInt 5).
Proof.
  eexists. split; [reflexivity|]. split; [reflexivity|discriminate].
Qed.

(** After an idle time above the age the next request goes out on a
    fresh handle and the old one is closed. *)
Example recycled_after_idle :
  let Ω := {| time_time := slow_clock; transport := fun _ _ => answer 200 None;
              stack := sample_stack |} in
  let call := {| sent_via := 0; sent_attempt := VInt 1; sent_method := VStr "GET";
                 sent_url := "https://api.example.com/"; sent_params := VNone;
                 sent_data := VNone; sent_headers := VNone; sent_json := VNone |} in
  let '(_, s1, env1) := Session.request Ω sample_session call sample_env in
  handle sample_session = O /\ handle s1 = 1%nat /\ closed env1 = [O] /\
  map sent_via (wire env1) = [1%nat].
Proof. vm_compute. repeat split; reflexivity. Qed.

(** ** The singleton *)

(** [__new__] returns an instance of the class, the one the lookup
    [class_._instance] finds from then on, and leaves the environment
    alone. *)
Lemma __new___returns cls prefix p :
  exists r p',
    __new__ cls prefix p = (Some r, p') /\
    class_instance cls p' = Some r /\
    isinstance (Some r) cls p' = true /\
    world p' = world p.
Proof.
  unfold __new__.
  destruct (isinstance (class_instance cls p) cls p) eqn:His; cbn [negb].
  - destruct (class_instance cls p) as [r|] eqn:Hci; [|discriminate His].
    exists r, p. rewrite Hci. auto.
  - eexists (length (objects p)), _. split.
    { unfold class_instance. cbn [omap list_omap _instance].
      rewrite lookup_insert_eq. reflexivity. }
    split.
    { unfold class_instance. cbn [omap list_omap _instance].
      rewrite lookup_insert_eq. reflexivity. }
    split; [|reflexivity].
    unfold isinstance. cbn [objects].
    rewrite lookup_app_r by lia. rewrite Nat.sub_diag. cbn [lookup list_lookup class_].
    apply bool_decide_eq_true_2, list_elem_of_here.
Qed.

(** [__new__] on a class whose lookup already finds an instance of it
    changes nothing. *)
Lemma __new___again cls prefix p r :
  class_instance cls p = Some r ->
  isinstance (Some r) cls p = true ->
  __new__ cls prefix p = (Some r, p).
Proof.
  intros Hci His. unfold __new__. rewrite Hci, His. cbn [negb]. rewrite Hci. reflexivity.
Qed.

(** [__init__] changes neither what the classes refer to nor the class
    of any object; it sets the receiver's prefix and gives it a new
    session. *)
Lemma __init___keeps Ω self prefix p cls x :
  class_instance cls (__init__ Ω self prefix p) = class_instance cls p /\
  isinstance x cls (__init__ Ω self prefix p) = isinstance x cls p /\
  length (objects (__init__ Ω self prefix p)) = length (objects p).
Proof.
  unfold __init__. destruct (Session.__init__ Ω 10%Q (world p)) as [s w].
  split; [reflexivity|]. split; [|cbn [objects]; apply length_alter].
  unfold isinstance. destruct x as [r|]; [|reflexivity]. cbn [objects].
  destruct (decide (self = r)) as [->|Hne].
  - rewrite list_lookup_alter_eq. destruct (objects p !! r); reflexivity.
  - rewrite list_lookup_alter_ne by exact Hne. reflexivity.
Qed.

Lemma __init___url_prefix Ω self prefix p b :
  objects p !! self = Some b ->
  exists s,
    objects (__init__ Ω self prefix p) !! self
    = Some {| class_ := class_ b; url_prefix := prefix; session := Some s |}.
Proof.
  intros Hb. unfold __init__. destruct (Session.__init__ Ω 10%Q (world p)) as [s w].
  exists s. cbn [objects]. rewrite list_lookup_alter_eq, Hb. reflexivity.
Qed.

(** A construction returns an instance of the class, initialised with
    the prefix of this very call. *)
Lemma construct_returns Ω cls prefix p :
  exists r p' b s,
    construct Ω cls prefix p = (Some r, p') /\
    class_instance cls p' = Some r /\
    isinstance (Some r) cls p' = true /\
    objects p' !! r = Some b /\
    url_prefix b = prefix /\ session b = Some s.
Proof.
  destruct (__new___returns cls prefix p) as (r & p1 & Hnew & Hci & His & _).
  unfold construct. rewrite Hnew, His.
  destruct (__init___keeps Ω r prefix p1 cls (Some r)) as (Hci' & His' & _).
  assert (exists b1, objects p1 !! r = Some b1) as [b1 Hb1].
  { unfold isinstance in His. destruct (objects p1 !! r); [eauto|discriminate]. }
  destruct (__init___url_prefix Ω r prefix p1 b1 Hb1) as (s & Hb).
  eexists r, _, _, s. split; [reflexivity|].
  split; [congruence|]. split; [congruence|]. split; [exact Hb|]. split; reflexivity.
Qed.

(** A second construction returns the instance of the first one,
    creates no object, and leaves that instance with the prefix of the
    second call: the prefix of the first call is overwritten. *)
Lemma construct_again Ω cls prefix1 prefix2 p :
  exists r p1 p2 b,
    construct Ω cls prefix1 p = (Some r, p1) /\
    construct Ω cls prefix2 p1 = (Some r, p2) /\
    length (objects p2) = length (objects p1) /\
    objects p2 !! r = Some b /\
    url_prefix b = prefix2.
Proof.
  destruct (construct_returns Ω cls prefix1 p) as (r & p1 & b1 & s1 & H1 & Hci & His & Hb1 & _).
  exists r, p1. unfold construct at 2.
  rewrite (__new___again cls prefix2 p1 r Hci His), His.
  destruct (__init___url_prefix Ω r prefix2 p1 b1 Hb1) as (s & Hb).
  destruct (__init___keeps Ω r prefix2 p1 cls None) as (_ & _ & Hlen).
  eexists _, _. split; [exact H1|]. split; [reflexivity|].
  split; [exact Hlen|]. split; [exact Hb|]. reflexivity.
Qed.

(** [get_instance] after a construction returns the instance and
    changes nothing, whatever arguments it is given: the prefix that
    instance has is retained. *)
Lemma get_instance_retains Ω cls prefix args p :
  exists r p1,
    construct Ω cls prefix p = (Some r, p1) /\
    get_instance cls args p1 = (Ret r, p1).
Proof.
  destruct (construct_returns Ω cls prefix p) as (r & p1 & b1 & s1 & H1 & Hci & _).
  exists r, p1. split; [exact H1|]. unfold get_instance. rewrite Hci. reflexivity.
Qed.

(** *** At most one instance per class *)

Lemma __init___singletons Ω self prefix p :
  singletons p -> singletons (__init__ Ω self prefix p).
Proof.
  intros Hp r b. unfold __init__. destruct (Session.__init__ Ω 10%Q (world p)) as [s w].
  cbn [objects _instance]. destruct (decide (self = r)) as [->|Hne].
  - rewrite list_lookup_alter_eq. destruct (objects p !! r) as [b0|] eqn:Hb0; [|discriminate].
    intros [= <-]. cbn [class_]. apply (Hp r b0 Hb0).
  - rewrite list_lookup_alter_ne by exact Hne. apply Hp.
Qed.

Lemma __new___singletons cls prefix p :
  singletons p -> singletons (__new__ cls prefix p).2.
Proof.
  intros Hp. unfold __new__.
  destruct (isinstance (class_instance cls p) cls p) eqn:His; cbn [negb snd]; [exact Hp|].
  intros r b. cbn [objects _instance]. intros Hb.
  destruct (decide (r < length (objects p))%nat) as [Hlt|Hge].
  - rewrite lookup_app_l in Hb by exact Hlt.
    destruct (decide (name (class_ b) = name cls)) as [Heq|Hne].
    + exfalso. pose proof (Hp r b Hb) as Hown. rewrite Heq in Hown.
      unfold class_instance in His. cbn [omap list_omap] in His. rewrite Hown in His.
      cbn [head] in His. unfold isinstance in His. rewrite Hb in His.
      rewrite bool_decide_eq_true_2 in His; [discriminate|].
      rewrite Heq. apply list_elem_of_here.
    + rewrite lookup_insert_ne by congruence. apply (Hp r b Hb).
  - rewrite lookup_app_r in Hb by lia.
    destruct (r - length (objects p))%nat as [|k] eqn:Hk; [|destruct k; discriminate Hb].
    injection Hb as <-. cbn [class_]. rewrite lookup_insert_eq. f_equal. lia.
Qed.

Lemma construct_singletons Ω cls prefix p :
  singletons p -> singletons (construct Ω cls prefix p).2.
Proof.
  intros Hp. pose proof (__new___singletons cls prefix p Hp) as Hnew.
  unfold construct. destruct (__new__ cls prefix p) as [[r|] p1]; cbn [snd] in *; [|exact Hnew].
  destruct (isinstance (Some r) cls p1); cbn [snd]; [|exact Hnew].
  apply __init___singletons, Hnew.
Qed.

Lemma get_instance_state cls args p : (get_instance cls args p).2 = p.
Proof.
  unfold get_instance, _create_instance.
  destruct (class_instance cls p); [reflexivity|]. destruct args; reflexivity.
Qed.

Lemma reachable_singletons Ω p : reachable Ω p -> singletons p.
Proof.
  induction 1 as [env|cls prefix p _ IH|cls args p _ IH].
  - intros r b Hb. cbn in Hb. rewrite lookup_nil in Hb. discriminate.
  - apply construct_singletons, IH.
  - rewrite get_instance_state. exact IH.
Qed.

(** However many constructions and [get_instance] calls a process has
    seen, no two of its objects are of the same class. *)
Lemma at_most_one_instance Ω p r1 r2 b1 b2 :
  reachable Ω p ->
  objects p !! r1 = Some b1 ->
  objects p !! r2 = Some b2 ->
  name (class_ b1) = name (class_ b2) ->
  r1 = r2.
Proof.
  intros Hp H1 H2 Hn. apply reachable_singletons in Hp.
  pose proof (Hp r1 b1 H1) as E1. pose proof (Hp r2 b2 H2) as E2.
  rewrite Hn in E1. congruence.
Qed.

(** C2 (the code departs from the claim).  [ExampleBackend("/v1/")]
    followed by [ExampleBackend("/v2/")] in a process that had no
    instance: both calls return the same object and no second object
    is created, but [__init__] runs again on it, so that after the
    second call its prefix is "/v2/", not the "/v1/" of the first
    call, and its session has been replaced by a new one.
    [get_instance], by contrast, returns the object as the first call
    left it. *)
Theorem later_construction_overwrites_url_prefix :
  let Ω := answering 200 None in
  let first := construct Ω ExampleBackend (VStr "/v1/") fresh_process in
  let second := construct Ω ExampleBackend (VStr "/v2/") first.2 in
  first.1 = Some O /\ second.1 = Some O /\
  length (objects second.2) = 1%nat /\
  url_prefix <$> objects first.2 !! O = Some (VStr "/v1/") /\
  url_prefix <$> objects second.2 !! O = Some (VStr "/v2/") /\
  (fun b => handle <$> session b) <$> objects first.2 !! O = Some (Some 1%nat) /\
  (fun b => handle <$> session b) <$> objects second.2 !! O = Some (Some 2%nat) /\
  get_instance ExampleBackend [VStr "/v3/"] first.2 = (Ret O, first.2).
Proof. vm_compute. repeat split; reflexivity. Qed.

Lemma connect_never_raises_witness :
  exists b,
    connect_via (raise (Exn (Errors errors.TimeoutError) "simulated")) (sample_frame ∅)
    = Some (Ret b, connect_frame (sample_frame ∅)) /\
    (b = true <-> exists response,
        (Raise (Exn (Errors errors.TimeoutError) "simulated") : res Response)
        = Ret response /\
        status_code response = 200) /\
    (forall e,
        (Raise (Exn (Errors errors.TimeoutError) "simulated") : res Response) = Raise e ->
        b = false) /\
    (forall response,
        (Raise (Exn (Errors errors.TimeoutError) "simulated") : res Response)
        = Ret response ->
        status_code response <> 200 -> b = false).
Proof.
  apply (proj1 connect_never_raises
           (raise (Exn (Errors errors.TimeoutError) "simulated")) (sample_frame ∅)).
  reflexivity.
Defined.

(** * Further properties *)

(** ** URL construction, beyond strings *)

Lemma given_nonempty (s t : string) : s <> "" -> given s t = Some t.
Proof. destruct s; [congruence|reflexivity]. Qed.

Lemma rstrip_only_slashes (n : nat) : rstrip "/" (slashes n) = "".
Proof.
  induction n as [|n IH]; [reflexivity|].
  cbn [slashes rstrip]. rewrite IH. reflexivity.
Qed.

Lemma lstrip_app_slashes (n : nat) (s : string) :
  lstrip "/" (slashes n ++ s) = lstrip "/" s.
Proof.
  induction n as [|n IH]; [reflexivity|].
  cbn [slashes]. rewrite append_cons. cbn [lstrip char_in Ascii.eqb orb]. exact IH.
Qed.

Lemma rstrip_app_slashes (n : nat) (s : string) :
  rstrip "/" (s ++ slashes n) = rstrip "/" s.
Proof.
  induction s as [|a s IH].
  - rewrite append_empty. apply rstrip_only_slashes.
  - rewrite append_cons. cbn [rstrip]. rewrite IH. reflexivity.
Qed.

Lemma append_nonempty (s t : string) : s <> "" -> s ++ t <> "".
Proof. destruct s; [congruence|]. rewrite append_cons. discriminate. Qed.

Lemma append_nonempty_r (s t : string) : t <> "" -> s ++ t <> "".
Proof.
  destruct s; [rewrite append_empty; auto|]. rewrite append_cons. discriminate.
Qed.

(** X1.  A part that is [None] counts exactly like the empty string:
    for parts that are each [None] or a string, [_construct_full_url]
    never raises and returns the URL of the parts' texts. *)
Theorem construct_full_url_None_as_empty (base prefix path : value) :
  none_or_str base -> none_or_str prefix -> none_or_str path ->
  _construct_full_url base prefix path
  = Ret (buildFullUrl (text_of base) (text_of prefix) (text_of path)).
Proof.
  intros [->|[b ->]] [->|[p ->]] [->|[x ->]]; cbn [text_of];
    try destruct b; try destruct p; try destruct x; reflexivity.
Qed.

Lemma construct_full_url_None_as_empty_witness :
  _construct_full_url VNone (VStr "/v1/") VNone
  = Ret (buildFullUrl (text_of VNone) (text_of (VStr "/v1/")) (text_of VNone)).
Proof.
  apply construct_full_url_None_as_empty;
    [left; reflexivity | right; eexists; reflexivity | left; reflexivity].
Defined.

(** X2.  A part that is truthy but not a string has no strip method:
    [_construct_full_url] raises [AttributeError], whichever of the
    three parts it is (the parts before it being [None] or strings),
    and whatever the parts after it are. *)
Theorem construct_full_url_non_string (v : value) :
  truthy v = true -> (forall s, v <> VStr s) ->
  (forall prefix path,
     _construct_full_url v prefix path
     = Raise (AttributeError_ "object has no such strip method")) /\
  (forall base path, none_or_str base ->
     _construct_full_url base v path
     = Raise (AttributeError_ "object has no such strip method")) /\
  (forall base prefix, none_or_str base -> none_or_str prefix ->
     _construct_full_url base prefix v
     = Raise (AttributeError_ "object has no such strip method")).
Proof.
  intros Ht Hs.
  assert (Hpart : forall strip l,
            append_part strip v l = Raise (AttributeError_ "object has no such strip method")).
  { intros strip l. unfold append_part. rewrite Ht.
    destruct v; try reflexivity. exfalso. exact (Hs _ eq_refl). }
  assert (Hok : forall strip u l, none_or_str u -> exists l', append_part strip u l = Ret l').
  { intros strip u l [->|[s ->]]; unfold append_part; cbn [truthy];
      [eauto|destruct (negb _); eauto]. }
  split; [|split].
  - intros prefix path. unfold _construct_full_url. rewrite Hpart. reflexivity.
  - intros base path Hb. unfold _construct_full_url.
    destruct (Hok (rstrip "/") base [] Hb) as [l ->]. rewrite Hpart. reflexivity.
  - intros base prefix Hb Hp. unfold _construct_full_url.
    destruct (Hok (rstrip "/") base [] Hb) as [l ->].
    destruct (Hok (fun s => lstrip "/" (rstrip "/" s)) prefix l Hp) as [l' ->].
    rewrite Hpart. reflexivity.
Qed.

Lemma construct_full_url_non_string_witness :
  (forall prefix path,
     _construct_full_url (VInt 5) prefix path
     = Raise (AttributeError_ "object has no such strip method")) /\
  (forall base path, none_or_str base ->
     _construct_full_url base (VInt 5) path
     = Raise (AttributeError_ "object has no such strip method")) /\
  (forall base prefix, none_or_str base -> none_or_str prefix ->
     _construct_full_url base prefix (VInt 5)
     = Raise (AttributeError_ "object has no such strip method")).
Proof.
  apply construct_full_url_non_string; [reflexivity|discriminate].
Defined.

Lemma lstrip_rstrip_slashes (n : nat) (s : string) :
  lstrip "/" (rstrip "/" (slashes n ++ s)) = lstrip "/" (rstrip "/" s).
Proof.
  induction n as [|n IH]; [reflexivity|].
  cbn [slashes]. rewrite append_cons. cbn [rstrip].
  destruct (rstrip "/" (slashes n ++ s)) as [|a r] eqn:E.
  - cbn [char_in Ascii.eqb orb]. rewrite <- IH. reflexivity.
  - rewrite <- IH. reflexivity.
Qed.

(** X3.  Surplus slashes at the joints do not change the URL: for a
    base, a prefix and a path that are not empty, any number of
    slashes added after the base, before and after the prefix, or
    before the path gives the same URL. *)
Theorem construct_full_url_surplus_slashes (b p x : string) (i j k l : nat) :
  b <> "" -> p <> "" -> x <> "" ->
  _construct_full_url (VStr (b ++ slashes i)) (VStr ((slashes j ++ p) ++ slashes k))
    (VStr (slashes l ++ x))
  = _construct_full_url (VStr b) (VStr p) (VStr x).
Proof.
  intros Hb Hp Hx. rewrite !construct_full_url_strings. f_equal.
  unfold buildFullUrl.
  rewrite !given_nonempty
    by (first [assumption | apply append_nonempty; first [assumption|apply append_nonempty_r; assumption]
              | apply append_nonempty_r; assumption]).
  rewrite !rstrip_app_slashes, lstrip_app_slashes, lstrip_rstrip_slashes.
  reflexivity.
Qed.

Lemma construct_full_url_surplus_slashes_witness :
  _construct_full_url (VStr ("https://api.example.com" ++ slashes 2))
    (VStr ((slashes 3 ++ "v1") ++ slashes 1)) (VStr (slashes 2 ++ "things"))
  = _construct_full_url (VStr "https://api.example.com") (VStr "v1") (VStr "things").
Proof. apply construct_full_url_surplus_slashes; discriminate. Defined.

(** X4.  A part that is given but made of slashes only is not left
    out: it becomes an empty segment.  With a prefix of one or more
    slashes between a non-empty base and a non-empty path the URL has
    two slashes at the joint. *)
Theorem construct_full_url_slashes_only_prefix (b x : string) (n : nat) :
  b <> "" -> x <> "" -> (1 <= n)%nat ->
  _construct_full_url (VStr b) (VStr (slashes n)) (VStr x)
  = Ret (rstrip "/" b ++ "//" ++ lstrip "/" x).
Proof.
  intros Hb Hx Hn. rewrite construct_full_url_strings. f_equal. unfold buildFullUrl.
  assert (Hs : slashes n <> "") by (destruct n; [lia|discriminate]).
  rewrite !given_nonempty by assumption.
  rewrite rstrip_only_slashes. reflexivity.
Qed.

Lemma construct_full_url_slashes_only_prefix_witness :
  _construct_full_url (VStr "https://api.example.com/") (VStr (slashes 1)) (VStr "/things")
  = Ret (rstrip "/" "https://api.example.com/" ++ "//" ++ lstrip "/" "/things").
Proof. apply construct_full_url_slashes_only_prefix; [discriminate|discriminate|lia]. Defined.

(** ** The request and response objects *)


(** A loop over the keywords that goes through has met neither
    [__class__] nor [__weakref__]. *)
Lemma apply_kwargs_returns_keys (kwargs : dict) (self o : obj) :
  apply_kwargs self kwargs = Ret o ->
  ("__class__" ∉ kwargs.*1) /\ ("__weakref__" ∉ kwargs.*1).
Proof.
  revert self. induction kwargs as [|[k v] kwargs IH]; intros self.
  - intros _. split; apply not_elem_of_nil.
  - rewrite apply_kwargs_cons. destruct (setattr self k v) as [self'|e] eqn:E; [|discriminate].
    intros Hrun. destruct (IH _ Hrun) as [Hc Hw].
    cbn [fmap list_fmap fst]. rewrite !not_elem_of_cons.
    destruct (setattr_returns _ _ _ _ E) as [(-> & _)|(Hk & _)].
    + split; (split; [discriminate|assumption]).
    + apply special_false in Hk as (_ & H2 & H3).
      split; (split; [congruence|assumption]).
Qed.

(** X5.  [BackendResponse] on a dictionary.  With the key [self] the
    construction raises [TypeError].  Without it, a dictionary of
    ordinary keys gives an object that has exactly the dictionary's
    entries as attributes; a key [__class__] or [__weakref__] makes
    the construction raise ([TypeError] or [AttributeError]); and an
    entry [__dict__] that holds a dictionary replaces what the entries
    before it had set, so that the object ends up with the attributes
    of that dictionary and of the entries after it. *)
Theorem BackendResponse_attributes (info : dict) :
  (is_Some (info !! "self") ->
   BackendResponse.new info
   = Raise (TypeError_ "__init__() got multiple values for argument self")) /\
  (info !! "self" = None -> ordinary info -> NoDup info.*1 ->
   BackendResponse.new info = Ret (attributes_of info)) /\
  (info !! "self" = None -> "__class__" ∈ info.*1 \/ "__weakref__" ∈ info.*1 ->
   exists e, BackendResponse.new info = Raise e /\ raised_by_python e) /\
  (forall before d after,
     info = (before ++ ("__dict__", VDict d) :: after)%list ->
     info !! "self" = None -> ordinary before -> ordinary after ->
     BackendResponse.new info = Ret (bind_all (attributes_of d) after)).
Proof.
  split; [|split; [|split]].
  - intros [v Hv]. unfold BackendResponse.new. rewrite Hv. reflexivity.
  - intros Hself Hord Hnd. apply BackendResponse_new_ordinary; assumption.
  - intros Hself Hkey. destruct (BackendResponse.new info) as [o|e] eqn:Hnew.
    + exfalso. revert Hnew. unfold BackendResponse.new, BackendResponse.__init__.
      rewrite Hself. intros Hrun.
      destruct (apply_kwargs_returns_keys _ _ _ Hrun) as [Hc Hw].
      destruct Hkey; contradiction.
    + exists e. split; [reflexivity|]. exact (BackendResponse_new_raises _ _ Hnew).
  - intros before d after -> Hself Hb Ha.
    unfold BackendResponse.new, BackendResponse.__init__. rewrite Hself.
    rewrite apply_kwargs_app, (apply_kwargs_ordinary before) by exact Hb.
    rewrite apply_kwargs_cons. cbn [setattr String.eqb Ascii.eqb Bool.eqb].
    apply apply_kwargs_ordinary, Ha.
Qed.

Lemma BackendResponse_attributes_witness :
  BackendResponse.new [("a", VInt 1); ("__dict__", VDict [("b", VInt 2)]); ("c", VInt 3)]
  = Ret (bind_all (attributes_of [("b", VInt 2)]) [("c", VInt 3)]).
Proof.
  apply (proj2 (proj2 (proj2 (BackendResponse_attributes _)))
           [("a", VInt 1)] [("b", VInt 2)] [("c", VInt 3)]).
  - reflexivity.
  - reflexivity.
  - repeat constructor.
  - repeat constructor.
Defined.

(** The entry [__dict__] at work: of [{"a": 1, "__dict__": {"b": 2},
    "c": 3}] the object keeps [b] and [c], not [a]. *)
Example BackendResponse_dict_entry :
  BackendResponse.new [("a", VInt 1); ("__dict__", VDict [("b", VInt 2)]); ("c", VInt 3)]
  = Ret (<["b" := VInt 2]> {["c" := VInt 3]}).
Proof. vm_compute. reflexivity. Qed.



(** ** The session's handles *)

(** X7.  The session never sends on a closed handle.  If the session's
    handle is one that was created and not closed, then after a
    request the same holds again, and the call of that request went
    out on the session's handle, which is not among the closed
    ones. *)
Theorem request_never_uses_a_closed_handle Ω s call env :
  session_ok s env ->
  exists r s' env' sent,
    Session.request Ω s call env = (r, s', env') /\
    wire env' = (wire env ++ [sent])%list /\
    sent_via sent = handle s' /\
    (sent_via sent ∉ closed env') /\
    session_ok s' env'.
Proof.
  intros (Hlt & Hnc & Hcl). unfold Session.request, Session.__init__.
  destruct (Qlt_le_dec (age s) (time_time Ω (ticks env) - last_used s)) as [Hold|Hyoung];
    cbn [tick open_handle close_handle put_on_wire ticks opened closed wire log
         age last_used handle];
    eexists _, _, _, _; (split; [reflexivity|]);
    cbn [wire sent_via handle last_used age opened closed ticks];
    (split; [reflexivity|]); (split; [reflexivity|]);
    unfold session_ok;
    cbn [put_on_wire open_handle tick close_handle opened ticks closed handle].
  - assert (Hfresh : opened env ∉ handle s :: closed env).
    { intros Hin. apply elem_of_cons in Hin as [Heq|Hin]; [lia|].
      specialize (Hcl _ Hin). lia. }
    split; [exact Hfresh|]. split; [lia|]. split; [exact Hfresh|].
    intros h Hin. apply elem_of_cons in Hin as [->|Hin]; [lia|].
    specialize (Hcl _ Hin). lia.
  - split; [exact Hnc|]. split; [exact Hlt|]. split; [exact Hnc|exact Hcl].
Qed.

Lemma request_never_uses_a_closed_handle_witness :
  exists r s' env' sent,
    Session.request (always_failing exceptions.ConnectionError) sample_session
      {| sent_via := 0; sent_attempt := VInt 1; sent_method := VStr "GET";
         sent_url := "https://api.example.com/"; sent_params := VNone; sent_data := VNone;
         sent_headers := VNone; sent_json := VNone |} sample_env = (r, s', env') /\
    wire env' = (wire sample_env ++ [sent])%list /\
    sent_via sent = handle s' /\
    (sent_via sent ∉ closed env') /\
    session_ok s' env'.
Proof.
  apply request_never_uses_a_closed_handle.
  split; [cbn; lia|]. split; [cbn; apply not_elem_of_nil|].
  intros h Hh. cbn in Hh. inversion Hh.
Defined.

(** ** Construction and [get_instance] *)

Lemma __init___registry_sound Ω self prefix p :
  registry_sound p -> registry_sound (__init__ Ω self prefix p).
Proof.
  intros Hp c r Hc. unfold __init__ in *.
  destruct (Session.__init__ Ω 10%Q (world p)) as [s w]. cbn [_instance objects] in *.
  destruct (Hp c r Hc) as (b & Hb & Hn).
  destruct (decide (self = r)) as [->|Hne].
  - rewrite list_lookup_alter_eq, Hb. eexists. split; [reflexivity|exact Hn].
  - rewrite list_lookup_alter_ne by exact Hne. eauto.
Qed.

Lemma __new___registry_sound cls prefix p :
  registry_sound p -> registry_sound (__new__ cls prefix p).2.
Proof.
  intros Hp. unfold __new__.
  destruct (isinstance (class_instance cls p) cls p); cbn [negb snd]; [exact Hp|].
  intros c r. cbn [_instance objects]. destruct (decide (name cls = c)) as [<-|Hne].
  - rewrite lookup_insert_eq. intros [= <-].
    rewrite lookup_app_r by lia. rewrite Nat.sub_diag. eexists. split; reflexivity.
  - rewrite lookup_insert_ne by exact Hne. intros Hc.
    destruct (Hp c r Hc) as (b & Hb & Hn). exists b. split; [|exact Hn].
    rewrite lookup_app_l by (apply lookup_lt_Some in Hb; exact Hb). exact Hb.
Qed.

Lemma construct_registry_sound Ω cls prefix p :
  registry_sound p -> registry_sound (construct Ω cls prefix p).2.
Proof.
  intros Hp. pose proof (__new___registry_sound cls prefix p Hp) as Hnew.
  unfold construct. destruct (__new__ cls prefix p) as [[r|] p1]; cbn [snd] in *; [|exact Hnew].
  destruct (isinstance (Some r) cls p1); cbn [snd]; [|exact Hnew].
  apply __init___registry_sound, Hnew.
Qed.

Lemma reachable_registry_sound Ω p : reachable Ω p -> registry_sound p.
Proof.
  induction 1 as [env|cls prefix p _ IH|cls args p _ IH].
  - intros c r Hc. cbn in Hc. rewrite lookup_empty in Hc. discriminate.
  - apply construct_registry_sound, IH.
  - rewrite get_instance_state. exact IH.
Qed.

(** X8.  At most one instance per class.  In a process reached from
    one without objects by constructions and [get_instance] calls, in
    any number and order and for any classes, two objects of the same
    class are one and the same, and every [_instance] attribute
    refers to an object of the class that owns it. *)
Theorem one_instance_per_class Ω p :
  reachable Ω p ->
  (forall r1 r2 b1 b2,
     objects p !! r1 = Some b1 -> objects p !! r2 = Some b2 ->
     name (class_ b1) = name (class_ b2) -> r1 = r2) /\
  registry_sound p.
Proof.
  intros Hp. split.
  - intros r1 r2 b1 b2. apply (at_most_one_instance Ω p r1 r2 b1 b2 Hp).
  - apply (reachable_registry_sound Ω p Hp).
Qed.

Lemma one_instance_per_class_witness :
  let p := (construct (answering 200 None) ExampleBackend (VStr "/v2/")
              (construct (answering 200 None) ExampleBackend (VStr "/v1/") fresh_process).2).2 in
  (forall r1 r2 b1 b2,
     objects p !! r1 = Some b1 -> objects p !! r2 = Some b2 ->
     name (class_ b1) = name (class_ b2) -> r1 = r2) /\
  registry_sound p.
Proof.
  apply (one_instance_per_class (answering 200 None)).
  apply reachable_construct, reachable_construct.
  exact (reachable_fresh (answering 200 None) sample_env).
Defined.

(** X9.  Every construction, the first for its class or a later one,
    leaves the instance it returns with the prefix of this very call
    and with a new session: age ten, last used at the clock reading
    taken now, on a handle created now.  One handle is created and
    none is closed, so the handle of the session that the instance
    had before stays open. *)
Theorem construct_initialises Ω cls prefix p :
  exists r p' b s,
    construct Ω cls prefix p = (Some r, p') /\
    objects p' !! r = Some b /\
    name cls ∈ name (class_ b) :: ancestors (class_ b) /\
    url_prefix b = prefix /\
    session b = Some s /\
    age s = 10%Q /\
    last_used s = time_time Ω (ticks (world p)) /\
    handle s = opened (world p) /\
    opened (world p') = S (opened (world p)) /\
    closed (world p') = closed (world p).
Proof.
  destruct (__new___returns cls prefix p) as (r & p1 & Hnew & Hci & His & Hw).
  unfold construct. rewrite Hnew, His.
  pose proof His as His'. unfold isinstance in His'.
  destruct (objects p1 !! r) as [b1|] eqn:Hb1; [|discriminate].
  apply bool_decide_eq_true in His'.
  unfold __init__, Session.__init__. rewrite Hw.
  eexists r, _, _, _. split; [reflexivity|]. cbn [objects world].
  rewrite list_lookup_alter_eq, Hb1. cbn [fmap option_fmap option_map].
  split; [reflexivity|]. cbn [class_ url_prefix session age last_used handle].
  split; [exact His'|]. repeat (split; [reflexivity|]). reflexivity.
Qed.

(** X10.  [get_instance] on a subclass that has no instance of its own
    finds the [_instance] attribute it inherits: when the class next
    above it has its instance, [get_instance] returns that object,
    which is not an instance of the subclass, and creates nothing.  A
    construction of the subclass does not take that object: it creates
    a new one. *)
Theorem get_instance_inherits Ω p r b cls rest args prefix :
  reachable Ω p ->
  objects p !! r = Some b ->
  ancestors cls = name (class_ b) :: rest ->
  (forall r' b', objects p !! r' = Some b' -> name (class_ b') <> name cls) ->
  name cls ∉ name (class_ b) :: ancestors (class_ b) ->
  get_instance cls args p = (Ret r, p) /\
  isinstance (Some r) cls p = false /\
  (construct Ω cls prefix p).1 = Some (length (objects p)).
Proof.
  intros Hp Hb Hanc Hnone Hsub.
  pose proof (reachable_singletons Ω p Hp) as Hsing.
  pose proof (reachable_registry_sound Ω p Hp) as Hsound.
  assert (Hown : _instance p !! name cls = None).
  { destruct (_instance p !! name cls) as [r'|] eqn:E; [|reflexivity].
    destruct (Hsound _ _ E) as (b' & Hb' & Hn). exfalso. exact (Hnone _ _ Hb' Hn). }
  assert (Hci : class_instance cls p = Some r).
  { unfold class_instance. rewrite Hanc. cbn [omap list_omap].
    rewrite Hown, (Hsing r b Hb). reflexivity. }
  assert (His : isinstance (Some r) cls p = false).
  { unfold isinstance. rewrite Hb. apply bool_decide_eq_false_2, Hsub. }
  split; [unfold get_instance; rewrite Hci; reflexivity|]. split; [exact His|].
  assert (Hnew : (__new__ cls prefix p).1 = Some (length (objects p))).
  { unfold __new__. rewrite Hci, His. cbn [negb fst].
    unfold class_instance. cbn [omap list_omap _instance].
    rewrite lookup_insert_eq. reflexivity. }
  unfold construct. destruct (__new__ cls prefix p) as [x p1]. cbn [fst] in Hnew. subst x.
  destruct (isinstance _ cls p1); reflexivity.
Qed.

Lemma get_instance_inherits_witness :
  let Ω := answering 200 None in
  let p := (construct Ω ExampleBackend (VStr "/v1/") fresh_process).2 in
  get_instance SubBackend [] p = (Ret O, p) /\
  isinstance (Some O) SubBackend p = false /\
  (construct Ω SubBackend (VStr "/sub/") p).1 = Some (length (objects p)).
Proof.
  intros Ω p.
  eapply (get_instance_inherits Ω p O _ SubBackend [] [] (VStr "/sub/")).
  - apply reachable_construct. exact (reachable_fresh Ω sample_env).
  - reflexivity.
  - reflexivity.
  - intros r' b' Hb'. destruct r' as [|r']; [|destruct r'; discriminate Hb'].
    injection Hb' as <-. discriminate.
  - cbn. intros Hin. apply elem_of_cons in Hin as [Heq|Hin]; [discriminate Heq|inversion Hin].
Defined.

(** ** The dispatch on any frame *)

(** What the session's [request] puts on the wire is the call as
    written, on the session's handle. *)
Lemma Session_request_sent Ω s call env r s' env' :
  Session.request Ω s call env = (r, s', env') ->
  exists sent,
    wire env' = (wire env ++ [sent])%list /\
    log env' = log env /\
    r = transport Ω (length (wire env)) sent /\
    sent_attempt sent = sent_attempt call /\
    sent_url sent = sent_url call /\
    sent_method sent = sent_method call /\
    sent_params sent = sent_params call /\
    sent_data sent = sent_data call /\
    sent_headers sent = sent_headers call /\
    sent_json sent = sent_json call.
Proof.
  unfold Session.request, Session.__init__.
  destruct (Qlt_le_dec _ _); cbn; intros [= <- <- <-]; eexists; cbn;
    repeat (split; [reflexivity|]); reflexivity.
Qed.

(** An attempt on any frame: it stops before the send, with an
    exception of the interpreter's and the environment untouched, or
    it sends one call that carries the descriptor's fields. *)
Lemma attempt_shape Ω url fr :
  exists r fr',
    attempt Ω url fr = Some (r, fr') /\
    (((exists e, r = Raise e /\ raised_by_python e) /\
      env fr' = env fr /\ self fr' = self fr /\
      (request fr' = request fr \/
       exists tv t, request fr !! "tried" = Some tv /\ as_int tv = Some t /\
                    request fr' = assign (request fr) "tried" (VInt (t + 1)))) \/
     (exists tv t s s' env' sent,
        request fr !! "tried" = Some tv /\ as_int tv = Some t /\
        session (self fr) = Some s /\
        fr' = after_attempt fr t s' env' /\
        wire env' = (wire (env fr) ++ [sent])%list /\
        log env' = log (env fr) /\
        r = transport Ω (length (wire (env fr))) sent /\
        sent_attempt sent = VInt (t + 1) /\
        sent_url sent = url /\
        request fr !! "method" = Some (sent_method sent) /\
        request fr !! "params" = Some (sent_params sent) /\
        request fr !! "data" = Some (sent_data sent) /\
        request fr !! "headers" = Some (sent_headers sent) /\
        request fr !! "json" = Some (sent_json sent))).
Proof.
  unfold attempt, bind. unfold getattr_request at 1.
  destruct (request fr !! "tried") as [tv|] eqn:Htv.
  2:{ eexists _, _. split; [reflexivity|]. left.
      split; [eexists; split; [reflexivity|left; reflexivity]|]. auto. }
  unfold plus_one, lift. destruct (as_int tv) as [t|] eqn:Ht.
  2:{ eexists _, _. split; [reflexivity|]. left.
      split; [eexists; split; [reflexivity|right; reflexivity]|]. auto. }
  cbn [ret setattr_request].
  assert (Hstop : forall (r : res Response) fr' e,
    r = Raise e -> raised_by_python e -> env fr' = env fr -> self fr' = self fr ->
    request fr' = assign (request fr) "tried" (VInt (t + 1)) ->
    ((exists e, r = Raise e /\ raised_by_python e) /\
      env fr' = env fr /\ self fr' = self fr /\
      (request fr' = request fr \/
       exists tv0 t0, Some tv = Some tv0 /\ as_int tv0 = Some t0 /\
                    request fr' = assign (request fr) "tried" (VInt (t0 + 1))))).
  { intros r fr' e -> He Henv Hself Hreq. split; [eauto|]. split; [exact Henv|].
    split; [exact Hself|]. right. exists tv, t. auto. }
  unfold self_session_request. cbn [request self env].
  destruct (session (self fr)) as [s|] eqn:Hs.
  2:{ eexists _, _. split; [reflexivity|]. left.
      eapply Hstop; [reflexivity|left; reflexivity|reflexivity|reflexivity|reflexivity]. }
  unfold getattr_request, session_request, assign. cbn [request self env].
  rewrite !lookup_insert_ne by done.
  destruct (request fr !! "method") as [m|] eqn:Hm.
  2:{ eexists _, _. split; [reflexivity|]. left.
      eapply Hstop; [reflexivity|left; reflexivity|reflexivity|reflexivity|reflexivity]. }
  cbn [request self env]. rewrite !lookup_insert_ne by done.
  destruct (request fr !! "params") as [ps|] eqn:Hps.
  2:{ eexists _, _. split; [reflexivity|]. left.
      eapply Hstop; [reflexivity|left; reflexivity|reflexivity|reflexivity|reflexivity]. }
  cbn [request self env]. rewrite !lookup_insert_ne by done.
  destruct (request fr !! "data") as [d|] eqn:Hd.
  2:{ eexists _, _. split; [reflexivity|]. left.
      eapply Hstop; [reflexivity|left; reflexivity|reflexivity|reflexivity|reflexivity]. }
  cbn [request self env]. rewrite !lookup_insert_ne by done.
  destruct (request fr !! "headers") as [h|] eqn:Hh.
  2:{ eexists _, _. split; [reflexivity|]. left.
      eapply Hstop; [reflexivity|left; reflexivity|reflexivity|reflexivity|reflexivity]. }
  cbn [request self env]. rewrite !lookup_insert_ne by done.
  destruct (request fr !! "json") as [j|] eqn:Hj.
  2:{ eexists _, _. split; [reflexivity|]. left.
      eapply Hstop; [reflexivity|left; reflexivity|reflexivity|reflexivity|reflexivity]. }
  cbn [request self env]. rewrite Hs.
  match goal with |- context [Session.request Ω s ?c ?e] =>
    destruct (Session.request Ω s c e) as [[r s'] env'] eqn:E end.
  destruct (Session_request_sent _ _ _ _ _ _ _ E)
    as (sent & Hw & Hl & Hr & Ha & Hu & Hsm & Hsp & Hsd & Hsh & Hsj).
  cbn [sent_attempt sent_url sent_method sent_params sent_data sent_headers sent_json] in *.
  eexists _, _. split; [reflexivity|]. right.
  exists tv, t, s, s', env', sent.
  repeat (split; [first [reflexivity|assumption|congruence]|]). congruence.
Qed.

Lemma dispatch_post_stopped Ω room fr fr' e :
  raised_by_python e ->
  env fr' = env fr -> self fr' = self fr ->
  (forall k, k <> "tried" -> request fr' !! k = request fr !! k) ->
  dispatch_post Ω room fr (Raise e) fr'.
Proof.
  intros He Henv Hself Hreq. unfold dispatch_post. rewrite Henv, Hself.
  split; [exists []; split; [symmetry; apply app_nil_r|]; split; [cbn; lia|];
          split; [cbn; lia|]|].
  { intros c Hc. inversion Hc. }
  split; [exact Hreq|]. split; [reflexivity|]. split; [reflexivity|].
  split; [intros e' [= <-]; right; left; exact He|discriminate].
Qed.

Lemma same_but_tried_assign (o : obj) (v : value) (k : string) :
  k <> "tried" -> assign o "tried" v !! k = o !! k.
Proof. intros Hk. unfold assign. apply lookup_insert_ne. congruence. Qed.

(** A dispatch that ends after its one call. *)
Lemma dispatch_post_one_call Ω room fr fr' t s' env' sent (r : res Response) :
  (fr' = after_attempt fr t s' env' \/ exists l msg, fr' = logged l msg (after_attempt fr t s' env')) ->
  wire env' = (wire (env fr) ++ [sent])%list ->
  carries fr sent ->
  (forall e, r = Raise e -> dispatch_failure Ω e) ->
  (forall response, r = Ret response -> exists i sent, transport Ω i sent = Ret response) ->
  dispatch_post Ω room fr r fr'.
Proof.
  intros Hfr Hw Hc He Hr. unfold dispatch_post.
  assert (Hwire : wire (env fr') = (wire (env fr) ++ [sent])%list)
    by (destruct Hfr as [->|(l & msg & ->)]; exact Hw).
  assert (Hreq : request fr' = assign (request fr) "tried" (VInt (t + 1)))
    by (destruct Hfr as [->|(l & msg & ->)]; reflexivity).
  assert (Hcls : class_ (self fr') = class_ (self fr) /\
                 url_prefix (self fr') = url_prefix (self fr))
    by (destruct Hfr as [->|(l & msg & ->)]; split; reflexivity).
  split.
  { exists [sent]. split; [exact Hwire|]. split; [cbn; lia|]. split; [cbn; lia|].
    intros c Hin. apply list_elem_of_singleton in Hin as ->. exact Hc. }
  split; [intros k Hk; rewrite Hreq; apply same_but_tried_assign, Hk|].
  split; [apply Hcls|]. split; [apply Hcls|]. split; assumption.
Qed.

(** Every finished dispatch, on any frame, against any network, with
    any room. *)
Lemma dispatch_run Ω (room : nat) (fr : Frame) (r : res Response) (fr' : Frame) :
  _make_request_within Ω room fr = Some (r, fr') -> dispatch_post Ω room fr r fr'.
Proof.
  revert fr r fr'. induction room as [room IH] using lt_wf_ind. intros fr r fr'.
  rewrite _make_request_within_body. unfold bind at 1. unfold getattr_request at 1.
  destruct (request fr !! "path") as [path|] eqn:Hpath.
  2:{ intros [= <- <-]. apply dispatch_post_stopped; auto. left. reflexivity. }
  unfold bind at 1. unfold self_construct_full_url.
  destruct (_construct_full_url _ _ path) as [url|e0] eqn:Hurl; cbn [lift ret raise].
  2:{ intros [= <- <-]. apply dispatch_post_stopped; auto.
      revert Hurl. unfold _construct_full_url, append_part.
      repeat match goal with
      | |- context [if truthy ?v then _ else _] => destruct (truthy v)
      | |- context [match ?v with VStr _ => _ | _ => _ end] => destruct v
      end; intros [= <-]; left; reflexivity. }
  unfold try_except.
  destruct (attempt_shape Ω url fr) as (o & fr1 & Ha & Hshape). rewrite Ha.
  destruct Hshape as [((e & -> & He) & Henv & Hself & Hreq)
                     |(tv & t & s & s' & env' & sent & Htv & Ht & Hs & -> & Hw & Hl & Ho
                       & Hsa & Hsu & Hm & Hps & Hd & Hh & Hj)].
  - (* stopped before the send: no clause handles the exception *)
    assert (Hsub : issubclass (exn_class e) (Requests exceptions.RequestException) = false)
      by (destruct He as [-> | ->]; reflexivity).
    rewrite handlers_pass by exact Hsub. intros [= <- <-].
    apply dispatch_post_stopped; auto.
    intros k Hk. destruct Hreq as [->|(tv & t & _ & _ & ->)]; [reflexivity|].
    apply same_but_tried_assign, Hk.
  - assert (Hcar : carries fr sent).
    { unfold carries. repeat (split; [assumption|]). exists path. rewrite <- Hsu in Hurl. auto. }
    destruct o as [response|e].
    + intros [= <- <-].
      apply (dispatch_post_one_call Ω room fr _ t s' env' sent); auto; [discriminate|].
      intros response' [= <-]. eauto.
    + destruct (issubclass (exn_class e) (Requests exceptions.RequestException)) eqn:Hsub.
      2:{ rewrite handlers_pass by exact Hsub. intros [= <- <-].
          apply (dispatch_post_one_call Ω room fr _ t s' env' sent); auto; [|discriminate].
          intros e' [= <-]. right. right. right. split; [exact Hsub|]. eauto. }
      rewrite first_clause_catches by exact Hsub.
      assert (Hl1 : request (after_attempt fr t s' env') !! "tried" = Some (VInt (t + 1)))
        by apply lookup_insert_eq.
      assert (Hl2 : request (after_attempt fr t s' env') !! "max_retries"
                    = request fr !! "max_retries")
        by (apply same_but_tried_assign; done).
      unfold retry_or_raise, bind, getattr_request.
      rewrite Hl1. cbv beta iota. rewrite Hl2.
      destruct (request fr !! "max_retries") as [mv|] eqn:Hmv.
      2:{ intros [= <- <-].
          apply (dispatch_post_one_call Ω room fr _ t s' env' sent); auto; [|discriminate].
          intros e' [= <-]. right. left. left. reflexivity. }
      unfold ge, lift. cbn [as_int]. destruct (as_int mv) as [m|] eqn:Hmi.
      2:{ intros [= <- <-].
          apply (dispatch_post_one_call Ω room fr _ t s' env' sent); auto; [|discriminate].
          intros e' [= <-]. right. left. right. reflexivity. }
      cbn [ret]. destruct (m <=? t + 1) eqn:Hle.
      * unfold logging, raise. intros [= <- <-].
        apply (dispatch_post_one_call Ω room fr _ t s' env' sent); auto;
          [right; eexists _, _; reflexivity| |discriminate].
        intros e' [= <-]. left. reflexivity.
      * apply Z.leb_gt in Hle. unfold logging.
        match goal with |- _ ?fr2 = _ -> _ => set (fr2' := fr2) end.
        destruct room as [|room]; cbn [again].
        { (* the interpreter refuses the retry *)
          unfold raise. intros [= <- <-].
          apply (dispatch_post_one_call Ω 0 fr _ t s' env' sent); auto;
            [right; eexists _, _; reflexivity| |discriminate].
          intros e' [= <-]. right. right. left. reflexivity. }
        intros Hrun. specialize (IH room ltac:(lia) fr2' r fr' Hrun).
        destruct IH as ((calls & Hwire & Hlen & Hroom & Hcalls) & Hreq & Hcls & Hpre & Hexn & Hret).
        assert (Hreq2 : request fr2' = assign (request fr) "tried" (VInt (t + 1)))
          by reflexivity.
        unfold dispatch_post. split.
        { exists (sent :: calls). split; [|split; [|split]].
          - rewrite Hwire. subst fr2'. cbn [env write_log wire after_attempt].
            rewrite Hw, <- app_assoc. reflexivity.
          - revert Hlen. rewrite Hreq2. unfold attempts_left, assign.
            rewrite lookup_insert_eq, lookup_insert_ne by done.
            rewrite Htv, Hmv. cbn [as_int]. rewrite Ht, Hmi. cbn [length]. lia.
          - cbn [length]. lia.
          - intros c Hin. apply elem_of_cons in Hin as [->|Hin]; [exact Hcar|].
            destruct (Hcalls c Hin) as (H1 & H2 & H3 & H4 & H5 & p & H6 & H7).
            rewrite Hreq2 in H1, H2, H3, H4, H5, H6.
            rewrite same_but_tried_assign in H1, H2, H3, H4, H5, H6 by done.
            unfold carries. repeat (split; [assumption|]). exists p. split; [exact H6|exact H7]. }
        split.
        { intros k Hk. rewrite (Hreq k Hk), Hreq2. apply same_but_tried_assign, Hk. }
        split; [exact Hcls|]. split; [exact Hpre|]. split; assumption.
Qed.

(** X11.  Every dispatch comes to an end, and it puts at most
    [max_retries - tried] calls on the network (one call when that
    difference is below one, none when it stops before sending),
    whatever the frame and whatever the network does. *)
Theorem dispatch_attempts_bounded Ω fr :
  exists r fr' calls,
    _make_request Ω fr = Some (r, fr') /\
    sent_during fr fr' calls /\
    (length calls <= Nat.max 1 (attempts_left (request fr)))%nat /\
    (forall t n,
       request fr !! "tried" = Some (VInt t) ->
       request fr !! "max_retries" = Some (VInt n) ->
       Z.of_nat (length calls) <= Z.max 1 (n - t)).
Proof.
  destruct (_make_request_returns Ω fr) as (r & fr' & Hrun).
  destruct (dispatch_run Ω _ fr r fr' Hrun) as ((calls & Hw & Hlen & _) & _).
  exists r, fr', calls. split; [exact Hrun|]. split; [exact Hw|]. split; [exact Hlen|].
  intros t n Ht Hn. revert Hlen. unfold attempts_left. rewrite Ht, Hn. cbn [as_int]. lia.
Qed.

(** X12.  The failures of a dispatch.  An exception that comes out of
    [_make_request] is the first clause's [ConnectionError]
    ("Connection error occurred."), or one the interpreter raised for
    a missing attribute or a wrong operand, or the [RecursionError]
    with which the interpreter refuses a retry that would nest too
    deep, or an exception outside the [requests] hierarchy that the
    transport raised and that went through untouched.  So when the
    transport raises [requests] exceptions only, the failures of the
    other five clauses ([TimeoutError], [HttpError], [InvalidRequest],
    [InvalidResponse] and the "Unable to connect" [ConnectionError])
    never come out. *)
Theorem dispatch_failures Ω fr e fr' :
  _make_request Ω fr = Some (Raise e, fr') ->
  (e = connection_error_occurred \/ raised_by_python e \/ e = RecursionError_ \/
   (issubclass (exn_class e) (Requests exceptions.RequestException) = false /\
    exists i sent, transport Ω i sent = Raise e)) /\
  ((forall i sent e0, transport Ω i sent = Raise e0 ->
      issubclass (exn_class e0) (Requests exceptions.RequestException) = true) ->
   e = connection_error_occurred \/ raised_by_python e \/ e = RecursionError_).
Proof.
  intros Hrun.
  destruct (dispatch_run Ω _ fr _ fr' Hrun) as (_ & _ & _ & _ & Hexn & _).
  specialize (Hexn e eq_refl). split; [exact Hexn|].
  intros Hnet. destruct Hexn as [H|[H|[H|(Hsub & i & sent & Ht)]]]; [auto|auto|auto|].
  rewrite (Hnet i sent e Ht) in Hsub. discriminate.
Qed.

Lemma dispatch_failures_witness :
  (connection_error_occurred = connection_error_occurred \/
   raised_by_python connection_error_occurred \/
   connection_error_occurred = RecursionError_ \/
   (issubclass (exn_class connection_error_occurred)
      (Requests exceptions.RequestException) = false /\
    exists i sent,
      transport (always_failing exceptions.ReadTimeout) i sent
      = Raise connection_error_occurred)) /\
  ((forall i sent e0,
      transport (always_failing exceptions.ReadTimeout) i sent = Raise e0 ->
      issubclass (exn_class e0) (Requests exceptions.RequestException) = true) ->
   connection_error_occurred = connection_error_occurred \/
   raised_by_python connection_error_occurred \/
   connection_error_occurred = RecursionError_).
Proof.
  eapply (dispatch_failures (always_failing exceptions.ReadTimeout)
            (sample_frame (sample_request 1))).
  vm_compute. reflexivity.
Defined.

(** X13.  A dispatch changes nothing of the descriptor but its counter
    [tried], and nothing of the receiver but its session: every other
    attribute of the descriptor, the receiver's class and its
    [url_prefix] are after the dispatch what they were before,
    whether the dispatch returned or raised. *)
Theorem dispatch_changes_only_the_counter Ω fr r fr' :
  _make_request Ω fr = Some (r, fr') ->
  (forall k, k <> "tried" -> request fr' !! k = request fr !! k) /\
  class_ (self fr') = class_ (self fr) /\
  url_prefix (self fr') = url_prefix (self fr).
Proof.
  intros Hrun.
  destruct (dispatch_run Ω _ fr _ fr' Hrun) as (_ & Hreq & Hcls & Hpre & _).
  auto.
Qed.

Lemma dispatch_changes_only_the_counter_witness :
  exists fr',
  (forall k, k <> "tried" ->
     request fr' !! k = request (sample_frame (sample_request 3)) !! k) /\
  class_ (self fr') = class_ (self (sample_frame (sample_request 3))) /\
  url_prefix (self fr') = url_prefix (self (sample_frame (sample_request 3))).
Proof.
  eexists.
  eapply (dispatch_changes_only_the_counter (always_failing exceptions.ConnectionError)
            (sample_frame (sample_request 3))).
  vm_compute. reflexivity.
Defined.

(** X14.  Every call a dispatch puts on the network, the first and
    each retry alike, carries the descriptor's [method], [params],
    [data], [headers] and [json] as they are, to the URL built from
    the descriptor's [path]; and a response the dispatch returns is
    one the transport gave. *)
Theorem dispatch_sends_the_descriptor Ω fr r fr' :
  _make_request Ω fr = Some (r, fr') ->
  (exists calls, sent_during fr fr' calls /\ forall c, c ∈ calls -> carries fr c) /\
  (forall response, r = Ret response -> exists i sent, transport Ω i sent = Ret response).
Proof.
  intros Hrun.
  destruct (dispatch_run Ω _ fr _ fr' Hrun)
    as ((calls & Hw & _ & _ & Hc) & _ & _ & _ & _ & Hret).
  split; [exists calls; split; assumption|exact Hret].
Qed.

Lemma dispatch_sends_the_descriptor_witness :
  exists fr',
  (exists calls,
     sent_during (sample_frame (sample_request 2)) fr' calls /\
     forall c, c ∈ calls -> carries (sample_frame (sample_request 2)) c) /\
  (forall response, answer 200 (Some (VDict ∅)) = Ret response ->
     exists i sent, transport (failing_once exceptions.ConnectionError) i sent = Ret response).
Proof.
  eexists.
  eapply (dispatch_sends_the_descriptor (failing_once exceptions.ConnectionError)
            (sample_frame (sample_request 2))).
  vm_compute. reflexivity.
Defined.

(** ** The dispatch on a ready frame *)

(** One activation of the dispatch on a ready frame, in full. *)
Lemma ready_step Ω room fr url t n :
  ready fr url t n ->
  exists sent s' env',
    wire env' = (wire (env fr) ++ [sent])%list /\
    log env' = log (env fr) /\
    sent_attempt sent = VInt (t + 1) /\
    ready (after_attempt fr t s' env') url (t + 1) n /\
    _make_request_within Ω room fr
    = match transport Ω (length (wire (env fr))) sent with
      | Ret response => Some (Ret response, after_attempt fr t s' env')
      | Raise e =>
          if issubclass (exn_class e) (Requests exceptions.RequestException)
          then if n <=? t + 1
               then Some (Raise connection_error_occurred,
                          logged ERROR (exn_msg e) (after_attempt fr t s' env'))
               else again Ω room
                      (logged WARNING
                         ("Connection error occurred. Retrying request to " ++ url)
                         (after_attempt fr t s' env'))
          else Some (Raise e, after_attempt fr t s' env')
      end.
Proof.
  intros Hr.
  destruct (attempt_ready Ω fr url t n Hr) as (s & call & r & s' & env' & _ & Hca & _ & HS & Ha).
  destruct (Session_request_sent _ _ _ _ _ _ _ HS) as (sent & Hw & Hl & Hout & Hsa & _).
  pose proof (after_attempt_ready fr url t n s' env' Hr) as Hr'.
  exists sent, s', env'. split; [exact Hw|]. split; [exact Hl|].
  split; [congruence|]. split; [exact Hr'|].
  rewrite (_make_request_within_ready Ω room fr url t n Hr).
  unfold try_except. rewrite Ha, <- Hout. destruct r as [response|e]; [reflexivity|].
  destruct (issubclass (exn_class e) (Requests exceptions.RequestException)) eqn:Hsub.
  - rewrite first_clause_catches by exact Hsub.
    apply (retry_or_raise_ready url _ e _ (t + 1) n Hr').
  - apply handlers_pass, Hsub.
Qed.

(** X15.  An exception of the transport that is not a [requests]
    exception is never retried, whatever budget remains: the dispatch
    raises that very exception after its one call, with the counter
    raised by one and nothing logged. *)
Theorem foreign_exception_is_not_retried Ω fr url t n e :
  ready fr url t n ->
  (forall sent, transport Ω (length (wire (env fr))) sent = Raise e) ->
  issubclass (exn_class e) (Requests exceptions.RequestException) = false ->
  exists fr' sent,
    _make_request Ω fr = Some (Raise e, fr') /\
    wire (env fr') = (wire (env fr) ++ [sent])%list /\
    log (env fr') = log (env fr) /\
    request fr' !! "tried" = Some (VInt (t + 1)).
Proof.
  intros Hr Hnet Hsub. unfold _make_request.
  destruct (ready_step Ω (stack Ω) fr url t n Hr)
    as (sent & s' & env' & Hw & Hl & _ & Hr' & Hstep).
  rewrite Hnet, Hsub in Hstep.
  exists (after_attempt fr t s' env'), sent.
  split; [exact Hstep|]. split; [exact Hw|]. split; [exact Hl|].
  apply (ready_tried _ _ _ _ Hr').
Qed.

Lemma foreign_exception_is_not_retried_witness :
  exists fr' sent,
    _make_request (raising (ValueError_ "not a requests exception"))
      (sample_frame (sample_request 3))
    = Some (Raise (ValueError_ "not a requests exception"), fr') /\
    wire (env fr') = (wire (env (sample_frame (sample_request 3))) ++ [sent])%list /\
    log (env fr') = log (env (sample_frame (sample_request 3))) /\
    request fr' !! "tried" = Some (VInt (0 + 1)).
Proof.
  apply (foreign_exception_is_not_retried
           (raising (ValueError_ "not a requests exception"))
           (sample_frame (sample_request 3)) "https://api.example.com/v1/things" 0 3).
  - apply sample_frame_ready.
  - reflexivity.
  - reflexivity.
Defined.

(** Failures the first clause takes, [k] of them in a row, then an
    answer, with budget and room for all of it. *)
Lemma retried_until_answered_within Ω url n response :
  forall k room t fr,
    ready fr url t n ->
    t + Z.of_nat k < n ->
    (k <= room)%nat ->
    (forall j, (j < k)%nat -> exists e,
        (forall sent, transport Ω (length (wire (env fr)) + j) sent = Raise e) /\
        issubclass (exn_class e) (Requests exceptions.RequestException) = true) ->
    (forall sent, transport Ω (length (wire (env fr)) + k) sent = Ret response) ->
    exists fr' calls,
      _make_request_within Ω room fr = Some (Ret response, fr') /\
      sent_during fr fr' calls /\
      map sent_attempt calls = count_from (t + 1) (S k) /\
      request fr' !! "tried" = Some (VInt (t + Z.of_nat k + 1)) /\
      log (env fr')
      = (log (env fr)
         ++ repeat (WARNING, ("Connection error occurred. Retrying request to " ++ url)%string)
              k)%list.
Proof.
  induction k as [|k IH]; intros room t fr Hr Hlt Hf Hfail Hok;
    destruct (ready_step Ω room fr url t n Hr)
      as (sent & s' & env' & Hw & Hl & Hsa & Hr' & Hstep).
  - rewrite Nat.add_0_r in Hok. rewrite Hok in Hstep.
    exists (after_attempt fr t s' env'), [sent].
    split; [exact Hstep|]. split; [exact Hw|]. split; [cbn; congruence|].
    split; [rewrite (ready_tried _ _ _ _ Hr'); do 2 f_equal; lia|].
    cbn [repeat]. rewrite app_nil_r. exact Hl.
  - destruct room as [|room]; [lia|]. cbn [again] in Hstep.
    destruct (Hfail O ltac:(lia)) as (e & He & Hsub).
    rewrite Nat.add_0_r in He. rewrite He, Hsub in Hstep.
    destruct (n <=? t + 1) eqn:Hle; [apply Z.leb_le in Hle; lia|].
    set (fr1 := logged WARNING _ (after_attempt fr t s' env')) in *.
    assert (Hr1 : ready fr1 url (t + 1) n) by (apply logged_ready; exact Hr').
    assert (Hlen : length (wire (env fr1)) = S (length (wire (env fr)))).
    { subst fr1. cbn [logged after_attempt env write_log wire].
      rewrite Hw, length_app. cbn [length]. lia. }
    destruct (IH room (t + 1) fr1 Hr1 ltac:(lia) ltac:(lia)) as (fr' & calls & Hrun & Hs & Ha & Ht & Hg).
    + intros j Hj. destruct (Hfail (S j) ltac:(lia)) as (e' & He' & Hsub').
      exists e'. split; [|exact Hsub']. intros sent0. rewrite Hlen.
      replace (S (length (wire (env fr))) + j)%nat with (length (wire (env fr)) + S j)%nat by lia.
      apply He'.
    + intros sent0. rewrite Hlen.
      replace (S (length (wire (env fr))) + k)%nat with (length (wire (env fr)) + S k)%nat by lia.
      apply Hok.
    + exists fr', (sent :: calls). rewrite Hstep. split; [exact Hrun|]. split; [|split; [|split]].
      * unfold sent_during in *. rewrite Hs. subst fr1.
        cbn [logged after_attempt env write_log wire]. rewrite Hw, <- app_assoc. reflexivity.
      * cbn [map]. rewrite Hsa, Ha. reflexivity.
      * rewrite Ht. do 2 f_equal. lia.
      * rewrite Hg. subst fr1. cbn [logged after_attempt env write_log log].
        rewrite Hl, <- app_assoc. reflexivity.
Qed.

(** X16.  Retrying works: when the first [k] calls of a dispatch fail
    with exceptions of the [requests] hierarchy, the next call is
    answered, the budget covers it ([tried + k < max_retries]) and the
    interpreter has room for the [k] retries, the dispatch returns
    that answer after [k + 1] calls, made with the counter at
    [tried + 1], ..., [tried + k + 1], and has logged exactly [k]
    warnings and no error. *)
Theorem retried_until_answered Ω fr url t n k response :
  ready fr url t n ->
  t + Z.of_nat k < n ->
  (k <= stack Ω)%nat ->
  (forall j, (j < k)%nat -> exists e,
      (forall sent, transport Ω (length (wire (env fr)) + j) sent = Raise e) /\
      issubclass (exn_class e) (Requests exceptions.RequestException) = true) ->
  (forall sent, transport Ω (length (wire (env fr)) + k) sent = Ret response) ->
  exists fr' calls,
    _make_request Ω fr = Some (Ret response, fr') /\
    sent_during fr fr' calls /\
    map sent_attempt calls = count_from (t + 1) (S k) /\
    request fr' !! "tried" = Some (VInt (t + Z.of_nat k + 1)) /\
    log (env fr')
    = (log (env fr)
       ++ repeat (WARNING, ("Connection error occurred. Retrying request to " ++ url)%string)
            k)%list.
Proof.
  intros Hr Hlt Hroom Hfail Hok. unfold _make_request.
  exact (retried_until_answered_within Ω url n response k _ t fr Hr Hlt Hroom Hfail Hok).
Qed.

Lemma retried_until_answered_witness :
  exists fr' calls,
    _make_request (failing_once exceptions.ConnectionError) (sample_frame (sample_request 2))
    = Some (Ret {| status_code := 200; json_of_body := Some (VDict ∅) |}, fr') /\
    sent_during (sample_frame (sample_request 2)) fr' calls /\
    map sent_attempt calls = count_from (0 + 1) 2 /\
    request fr' !! "tried" = Some (VInt (0 + Z.of_nat 1 + 1)) /\
    log (env fr')
    = (log (env (sample_frame (sample_request 2)))
       ++ repeat (WARNING, ("Connection error occurred. Retrying request to "
                            ++ "https://api.example.com/v1/things")%string) 1)%list.
Proof.
  apply (retried_until_answered (failing_once exceptions.ConnectionError)
           (sample_frame (sample_request 2)) "https://api.example.com/v1/things" 0 2 1).
  - apply sample_frame_ready.
  - lia.
  - apply Nat.leb_le. vm_compute. reflexivity.
  - intros j Hj. assert (j = O) as -> by lia.
    eexists. split; [intros sent; reflexivity|reflexivity].
  - intros sent. reflexivity.
Defined.




(** ** [connect] and [make_request], further *)

(** X18.  [connect] never retries.  On every receiver and against
    every network it ends with a boolean after at most one call, and
    that call is a GET without parameters, body or headers, to the URL
    built from the class's [connect_endpoint]. *)
Theorem connect_sends_at_most_one_GET Ω fr :
  exists b fr' calls,
    connect Ω fr = Some (Ret b, fr') /\
    sent_during fr fr' calls /\
    (length calls <= 1)%nat /\
    forall c, c ∈ calls ->
      sent_method c = VStr "GET" /\
      sent_params c = VNone /\ sent_data c = VNone /\
      sent_headers c = VNone /\ sent_json c = VNone /\
      _construct_full_url (base_url (class_ (self fr))) (url_prefix (self fr))
        (connect_endpoint (class_ (self fr)))
      = Ret (sent_url c).
Proof.
  destruct (_make_request_returns Ω (connect_frame fr)) as (o & fr1 & Hrun).
  destruct (dispatch_run Ω _ _ _ _ Hrun) as ((calls & Hw & Hlen & _ & Hcar) & _).
  eexists _, fr1, calls. split; [apply (connect_via_outcome _ fr o fr1), Hrun|].
  split; [exact Hw|]. split; [exact Hlen|].
  intros c Hc. destruct (Hcar c Hc) as (Hm & Hps & Hd & Hh & Hj & path & Hp & Hu).
  change (request (connect_frame fr) !! "method") with (Some (VStr "GET")) in Hm.
  change (request (connect_frame fr) !! "params") with (Some VNone) in Hps.
  change (request (connect_frame fr) !! "data") with (Some VNone) in Hd.
  change (request (connect_frame fr) !! "headers") with (Some VNone) in Hh.
  change (request (connect_frame fr) !! "json") with (Some VNone) in Hj.
  change (request (connect_frame fr) !! "path")
    with (Some (connect_endpoint (class_ (self fr)))) in Hp.
  injection Hm as <-. injection Hps as <-. injection Hd as <-.
  injection Hh as <-. injection Hj as <-. injection Hp as <-.
  repeat (split; [reflexivity|]). exact Hu.
Qed.



(** ** The recursion limit *)

(** X20.  The retries of a dispatch nest, and the interpreter bounds
    the nesting.  Against a network that fails every call with a
    [requests] exception, a dispatch whose budget asks for more
    retries than the interpreter has room for never reaches the
    budget: it makes one call per activation there is room for, the
    counter going up by one each time, and ends in [RecursionError]
    instead of the first clause's [ConnectionError], with the counter
    below [max_retries]. *)
Theorem retries_end_in_RecursionError Ω fr url t n :
  ready fr url t n ->
  always_raises Ω (Requests exceptions.RequestException) ->
  t + Z.of_nat (stack Ω) + 1 < n ->
  exists fr' calls,
    _make_request Ω fr = Some (Raise RecursionError_, fr') /\
    sent_during fr fr' calls /\
    map sent_attempt calls = count_from (t + 1) (S (stack Ω)) /\
    request fr' !! "tried" = Some (VInt (t + Z.of_nat (stack Ω) + 1)) /\
    (forall c, c ∈ calls -> carries fr c).
Proof.
  intros Hr Hnet Hlt.
  destruct (recursion_limit_cuts_retries Ω url n Hnet (stack Ω) t fr Hr Hlt)
    as (fr' & calls & Hrun & Htried & Hsent & Hatt).
  exists fr', calls. split; [exact Hrun|]. split; [exact Hsent|].
  split; [exact Hatt|]. split; [exact Htried|].
  destruct (dispatch_run Ω _ fr _ fr' Hrun) as ((calls' & Hw & _ & _ & Hc) & _).
  unfold sent_during in Hsent. rewrite Hsent in Hw. apply app_inv_head in Hw.
  subst calls'. exact Hc.
Qed.

Lemma retries_end_in_RecursionError_witness :
  exists fr' calls,
    _make_request (always_failing exceptions.ReadTimeout) (sample_frame (sample_request 2000))
    = Some (Raise RecursionError_, fr') /\
    sent_during (sample_frame (sample_request 2000)) fr' calls /\
    map sent_attempt calls = count_from (0 + 1) (S sample_stack) /\
    request fr' !! "tried" = Some (VInt (0 + Z.of_nat sample_stack + 1)) /\
    (forall c, c ∈ calls -> carries (sample_frame (sample_request 2000)) c).
Proof.
  apply (retries_end_in_RecursionError (always_failing exceptions.ReadTimeout)
           (sample_frame (sample_request 2000)) "https://api.example.com/v1/things" 0 2000).
  - apply sample_frame_ready.
  - intros i sent. eexists. split; reflexivity.
  - apply Z.ltb_lt. vm_compute. reflexivity.
Defined.
